(** * Incident and log management platform: ingestion and anomaly detection

    A shallow embedding of the backend services

      - [src/backend/src/incidents/detection.service.ts]
        ([DetectionService.handleCron], [DetectionService.runDetection]),
      - [src/backend/src/incidents/incidents.service.ts]
        ([IncidentsService.create]),
      - [src/backend/src/ingestion/ingestion.service.ts]
        ([IngestionService.processLog]),

    together with the properties the specification states about them.

    JavaScript numbers are IEEE 754 binary64 values; they are modelled by
    Rocq's primitive floats, whose operations are the same correctly rounded
    binary64 operations.  Row counts and millisecond timestamps are integers
    (far) below 2^53, on which JavaScript arithmetic and comparison are exact;
    they are modelled in [Z].  Every [await] on the Prisma client is one
    atomic call on the database; a service method is a tree of such calls
    ([Prog]), which is run either alone against a store that may fail
    ([run]) or interleaved with the calls of other instances
    ([interleave]). *)

From Stdlib Require Import ZArith List String Ascii Floats Bool Lia DecimalString Sorted.
From stdpp Require Import base option list gmap strings.

Local Open Scope Z_scope.

(** ** ECMAScript built-ins used by the services *)

Module ES.

(** [Number(n)] for a non-negative integer: the nearest binary64 value
    (exact below 2^53). *)
Definition Number (n : Z) : float := PrimFloat.of_uint63 (Uint63.of_Z n).

(** Decimal digits of a non-negative integer, as template literals print
    an integer-valued number below 1e21. *)
Definition digits (n : Z) : string := NilZero.string_of_uint (N.to_uint (Z.to_N n)).

(** [Math.sqrt] is the binary64 square root. *)
Definition Math_sqrt (x : float) : float := PrimFloat.sqrt x.

(** [Math.pow(x, 2)]: the square, computed as the binary64 product
    [x * x]. *)
Definition Math_pow_2 (x : float) : float := PrimFloat.mul x x.

(** [String.prototype.padStart] with ["0"]. *)
Fixpoint zeros (k : nat) : string :=
  match k with
  | O => EmptyString
  | S k' => String "0"%char (zeros k')
  end.

Definition padStart0 (width : nat) (s : string) : string :=
  zeros (width - String.length s) +:+ s.

(** [Number::toString] of a finite integer-valued [X = mant * 2^e] that is
    at least 1e21: the shortest decimal significand [s] that reads back as
    the same binary64 value, in exponent notation.  [lo2] and [hi2] are
    twice the midpoints to the neighbouring binary64 values. *)
Definition shortest_candidate (X lo2 hi2 : Z) (incl : bool) (n k : Z) : option Z :=
  let P := 10 ^ (n - k) in
  let s1 := X / P in
  let s2 := s1 + 1 in
  let ok (s : Z) :=
    let V2 := 2 * s * P in
    if incl then (lo2 <=? V2) && (V2 <=? hi2) else (lo2 <? V2) && (V2 <? hi2) in
  let d1 := X - s1 * P in
  let d2 := s2 * P - X in
  match ok s1, ok s2 with
  | true, true =>
      Some (if d1 <? d2 then s1 else if d2 <? d1 then s2
            else if Z.even s1 then s1 else s2)
  | true, false => Some s1
  | false, true => Some s2
  | false, false => None
  end.

Fixpoint shortest_search (X lo2 hi2 : Z) (incl : bool) (n k : Z) (fuel : nat)
  : option (Z * Z) :=
  match fuel with
  | O => None
  | S fuel' =>
      match shortest_candidate X lo2 hi2 incl n k with
      | Some s => Some (s, k)
      | None => shortest_search X lo2 hi2 incl n (k + 1) fuel'
      end
  end.

Definition toString_large (mant e : Z) : string :=
  let X := mant * 2 ^ e in
  let below := if mant =? 2 ^ 52 then 2 ^ (e - 1) else 2 ^ e in
  let n := Z.of_nat (String.length (digits X)) in
  match shortest_search X (2 * X - below) (2 * X + 2 ^ e) (Z.even mant) n 1 17 with
  | Some (s, k) =>
      if s =? 10 ^ k then "1e+" +:+ digits n
      else
        match digits s with
        | String d rest =>
            String d (match rest with
                      | EmptyString => EmptyString
                      | _ => "." +:+ rest
                      end) +:+ "e+" +:+ digits (n - 1)
        | EmptyString => EmptyString
        end
  | None => digits X
  end.

(** [Number.prototype.toFixed(fractionDigits)]. *)
Definition toFixed (fractionDigits : nat) (x : float) : string :=
  match Prim2SF x with
  | S754_nan => "NaN"
  | S754_infinity false => "Infinity"
  | S754_infinity true => "-Infinity"
  | S754_zero _ =>
      match fractionDigits with
      | O => "0"
      | _ => "0." +:+ zeros fractionDigits
      end
  | S754_finite sign mant e =>
      let m := Z.pos mant in
      let s := if sign then "-" else "" in
      if (0 <=? e) && (10 ^ 21 <=? m * 2 ^ e) then s +:+ toString_large m e
      else
        let scaled := m * 10 ^ Z.of_nat fractionDigits in
        let n := if 0 <=? e then scaled * 2 ^ e
                 else (2 * scaled + 2 ^ (- e)) / 2 ^ (1 - e) in
        let ds := padStart0 (S fractionDigits) (digits n) in
        let k := String.length ds in
        match fractionDigits with
        | O => s +:+ ds
        | _ =>
            s +:+ substring 0 (k - fractionDigits) ds +:+ "."
              +:+ substring (k - fractionDigits) fractionDigits ds
        end
  end.

End ES.

(** ** Data model *)

(** Modelled from the spec: the enums [LogLevel], [Severity] and
    [IncidentStatus] that the services import from [@prisma/client]; they are
    generated from [prisma/schema.prisma], which is not among the sources.
    The rows and request bodies below have the fields the services read and
    write. *)
Inductive LogLevel : Set := DEBUG | INFO | WARN | ERROR | FATAL.
Inductive Severity : Set := LOW | MEDIUM | HIGH | CRITICAL.
Inductive IncidentStatus : Set := OPEN | ACKNOWLEDGED | RESOLVED.

#[global] Instance LogLevel_eq_dec : EqDecision LogLevel.
Proof. solve_decision. Defined.
#[global] Instance Severity_eq_dec : EqDecision Severity.
Proof. solve_decision. Defined.
#[global] Instance IncidentStatus_eq_dec : EqDecision IncidentStatus.
Proof. solve_decision. Defined.

(** Row identifiers are generated by the database; the model draws them from
    a counter kept in the store. *)
Definition Id : Set := nat.

(** Timestamps are milliseconds since the epoch, as [Date.getTime()]. *)
Definition Millis : Set := Z.

(** A row of the [Log] table. *)
Record Log : Set := mkLog {
  log_id : Id;
  log_service_id : string;
  log_level : LogLevel;
  log_message : string;
  log_timestamp : Millis;
  log_metadata : list (string * string);
  log_incident_id : option Id
}.

(** A row of the [Incident] table, with the columns the services write. *)
Record Incident : Set := mkIncident {
  incident_id : Id;
  incident_title : string;
  incident_severity : Severity;
  incident_status : IncidentStatus
}.

(** A row of the [CronLock] table. *)
Record CronLock : Set := mkCronLock {
  id : string;
  lockedAt : Millis;
  expiry : Millis
}.

(** [CreateIncidentDto], as [runDetection] fills it. *)
Record CreateIncidentDto : Set := mkCreateIncidentDto {
  title : string;
  severity : Severity;
  status : IncidentStatus
}.

(** [CreateLogDto]: the validated request body of [POST /ingest];
    [timestamp] is the instant its ISO string denotes, [metadata] is
    optional. *)
Record CreateLogDto : Set := mkCreateLogDto {
  service_id : string;
  level : LogLevel;
  message : string;
  timestamp : Millis;
  metadata : option (list (string * string))
}.

(** The [data] of [log.create]. *)
Record LogCreateInput : Set := mkLogCreateInput {
  data_service_id : string;
  data_level : LogLevel;
  data_message : string;
  data_timestamp : Millis;
  data_metadata : list (string * string)
}.

(** One row of the baseline aggregate: [time_bucket] and [loading]. *)
Record BaselineRow : Set := mkBaselineRow {
  time_bucket : Millis;
  loading : Z
}.

(** The [where] filter of [log.count] and [log.updateMany]:
    [{ level, timestamp: { gte }, incident_id }]. *)
Record LogWhere : Set := mkLogWhere {
  where_level : LogLevel;
  where_timestamp_gte : Millis;
  where_incident_id : option Id
}.

(** The database. *)
Record Store : Type := mkStore {
  logs : list Log;
  incidents : list Incident;
  cronLocks : gmap string CronLock;
  next_id : Id
}.

(** ** The Prisma client *)

(** Errors a Prisma call rejects with: the database cannot be reached
    (P1001), a unique constraint fails (P2002), the record to delete does
    not exist (P2025). *)
Inductive PrismaError : Set := P1001 | P2002 | P2025.

(** The calls the services make; the index is the type a fulfilled call
    resolves to. *)
Inductive Call : Type -> Type :=
| cronLock_findUnique (where_id : string) : Call (option CronLock)
| cronLock_delete (where_id : string) : Call CronLock
| cronLock_create (data : CronLock) : Call CronLock
| queryRaw_baseline (sql_now : Millis) : Call (list BaselineRow)
| log_count (w : LogWhere) : Call Z
| log_updateMany (w : LogWhere) (data_incident_id : Id) : Call Z
| log_create (data : LogCreateInput) : Call Log
| incident_create (data : CreateIncidentDto) : Call Incident.

(** A settled promise. *)
Inductive Outcome (A : Type) : Type :=
| Fulfilled (a : A)
| Rejected (e : PrismaError).
Arguments Fulfilled {A} a.
Arguments Rejected {A} e.

Definition is_fulfilled {A : Type} (r : Outcome A) : bool :=
  match r with
  | Fulfilled _ => true
  | Rejected _ => false
  end.

(** *** What each call does to the database *)

(** A record passes the filter. *)
Definition matches (w : LogWhere) (l : Log) : bool :=
  bool_decide (log_level l = where_level w)
  && (where_timestamp_gte w <=? log_timestamp l)
  && bool_decide (log_incident_id l = where_incident_id w).

(** [data: { incident_id }] of [log.updateMany]. *)
Definition set_incident_id (i : Id) (l : Log) : Log :=
  mkLog (log_id l) (log_service_id l) (log_level l) (log_message l)
        (log_timestamp l) (log_metadata l) (Some i).

(** [date_trunc('minute', t)]. *)
Definition date_trunc_minute (t : Millis) : Millis := t / 60000 * 60000.

(** Adds one record to the bucket list, which is kept in descending order of
    [time_bucket] ([GROUP BY time_bucket ORDER BY time_bucket DESC]). *)
Fixpoint tally (bucket : Millis) (rows : list BaselineRow) : list BaselineRow :=
  match rows with
  | [] => [mkBaselineRow bucket 1]
  | r :: rest =>
      if time_bucket r =? bucket then mkBaselineRow bucket (loading r + 1) :: rest
      else if time_bucket r <? bucket then mkBaselineRow bucket 1 :: r :: rest
      else r :: tally bucket rest
  end.

(** The raw baseline query of [runDetection]: per-minute counts of the ERROR
    records of the last 30 minutes, newest bucket first. *)
Definition baseline_query (sql_now : Millis) (ls : list Log) : list BaselineRow :=
  fold_left (fun rows l => tally (date_trunc_minute (log_timestamp l)) rows)
    (List.filter (fun l => bool_decide (log_level l = ERROR)
                           && (sql_now - 30 * 60000 <? log_timestamp l)) ls)
    [].

(** [a] is a later minute than [b]. *)
Definition newer (a b : BaselineRow) : Prop := time_bucket b < time_bucket a.

(** The count the rows hold for the minute [b]. *)
Definition loading_of (b : Millis) (rows : list BaselineRow) : Z :=
  fold_right (fun r total => if time_bucket r =? b then loading r + total else total)
             0 rows.

(** What the database answers to a call, and what it becomes. *)
Definition perform {R : Type} (c : Call R) (st : Store) : Outcome R * Store :=
  match c in Call R return Outcome R * Store with
  | cronLock_findUnique i => (Fulfilled (cronLocks st !! i), st)
  | cronLock_delete i =>
      match cronLocks st !! i with
      | Some row =>
          (Fulfilled row,
           mkStore (logs st) (incidents st) (delete i (cronLocks st)) (next_id st))
      | None => (Rejected P2025, st)
      end
  | cronLock_create data =>
      match cronLocks st !! id data with
      | Some _ => (Rejected P2002, st)
      | None =>
          (Fulfilled data,
           mkStore (logs st) (incidents st) (<[id data := data]> (cronLocks st))
                   (next_id st))
      end
  | queryRaw_baseline sql_now => (Fulfilled (baseline_query sql_now (logs st)), st)
  | log_count w => (Fulfilled (Z.of_nat (length (List.filter (matches w) (logs st)))), st)
  | log_updateMany w i =>
      (Fulfilled (Z.of_nat (length (List.filter (matches w) (logs st)))),
       mkStore (map (fun l => if matches w l then set_incident_id i l else l) (logs st))
               (incidents st) (cronLocks st) (next_id st))
  | log_create d =>
      let row := mkLog (next_id st) (data_service_id d) (data_level d) (data_message d)
                       (data_timestamp d) (data_metadata d) None in
      (Fulfilled row,
       mkStore (logs st ++ [row]) (incidents st) (cronLocks st) (S (next_id st)))
  | incident_create d =>
      let row := mkIncident (next_id st) (title d) (severity d) (status d) in
      (Fulfilled row,
       mkStore (logs st) (incidents st ++ [row]) (cronLocks st) (S (next_id st)))
  end.

(** ** Asynchronous methods as trees of calls *)

(** An [async] method: it returns, throws, or awaits a call and continues
    with the settled promise. *)
Inductive Prog (A : Type) : Type :=
| Return (a : A)
| Throw (e : PrismaError)
| Await {R : Type} (c : Call R) (k : Outcome R -> Prog A).
Arguments Return {A} a.
Arguments Throw {A} e.
Arguments Await {A R} c k.

Fixpoint bind {A B : Type} (p : Prog A) (f : A -> Prog B) : Prog B :=
  match p with
  | Return a => f a
  | Throw e => Throw e
  | Await c k => Await c (fun r => bind (k r) f)
  end.

Notation "'let!' x := p 'in' k" := (bind p (fun x => k))
  (at level 10, x name, p at level 100, k at level 200).

(** [await call]: a rejection is thrown at the [await]. *)
Definition await {R : Type} (c : Call R) : Prog R :=
  Await c (fun r => match r with
                    | Fulfilled a => Return a
                    | Rejected e => Throw e
                    end).

(** [try { p } catch (e) { h e }]. *)
Fixpoint try_catch {A : Type} (p : Prog A) (h : PrismaError -> Prog A) : Prog A :=
  match p with
  | Return a => Return a
  | Throw e => h e
  | Await c k => Await c (fun r => try_catch (k r) h)
  end.

(** [try { p } finally { q }]: [q] runs on both exits of [p]; the outcome of
    [p] stands unless [q] throws. *)
Fixpoint try_finally {A : Type} (p : Prog A) (q : Prog unit) : Prog A :=
  match p with
  | Return a => bind q (fun _ => Return a)
  | Throw e => bind q (fun _ => Throw e)
  | Await c k => Await c (fun r => try_finally (k r) q)
  end.

(** [promise.catch(() => {})]: the rejection is swallowed. *)
Definition catch_ignore {A : Type} (p : Prog A) : Prog unit :=
  try_catch (bind p (fun _ => Return tt)) (fun _ => Return tt).

(** *** Running one method against a store that may fail *)

(** The kind of a call, for the journal. *)
Inductive Op : Set :=
| OpLockFind | OpLockDelete | OpLockCreate | OpBaseline
| OpLogCount | OpLogUpdateMany | OpLogCreate | OpIncidentCreate.

#[global] Instance Op_eq_dec : EqDecision Op.
Proof. solve_decision. Defined.

Definition op_of {R : Type} (c : Call R) : Op :=
  match c with
  | cronLock_findUnique _ => OpLockFind
  | cronLock_delete _ => OpLockDelete
  | cronLock_create _ => OpLockCreate
  | queryRaw_baseline _ => OpBaseline
  | log_count _ => OpLogCount
  | log_updateMany _ _ => OpLogUpdateMany
  | log_create _ => OpLogCreate
  | incident_create _ => OpIncidentCreate
  end.

(** The world a method runs in: the database, the outages still to come (one
    entry per call, [true] when the database cannot be reached for that call;
    none left means no more outages), and the journal of the calls made so
    far, each with whether it was fulfilled. *)
Record World : Type := mkWorld {
  db : Store;
  outages : list bool;
  journal : list (Op * bool)
}.

Definition step_call {R : Type} (c : Call R) (w : World) : Outcome R * World :=
  match outages w with
  | true :: rest =>
      (Rejected P1001, mkWorld (db w) rest (journal w ++ [(op_of c, false)]))
  | _ =>
      let (r, st') := perform c (db w) in
      (r, mkWorld st' (tail (outages w)) (journal w ++ [(op_of c, is_fulfilled r)]))
  end.

Fixpoint run {A : Type} (p : Prog A) (w : World) : Outcome A * World :=
  match p with
  | Return a => (Fulfilled a, w)
  | Throw e => (Rejected e, w)
  | Await c k => let (r, w') := step_call c w in run (k r) w'
  end.

(** *** Running several instances against one database *)

(** The instances of a deployment, the database they share, and the calls
    made so far: which instance, which call, whether it was fulfilled. *)
Record Cluster : Type := mkCluster {
  pool : list (Prog unit);
  shared : Store;
  history : list (nat * Op * bool)
}.

(** Instance [i] makes its next call, atomically; a settled instance does
    nothing. *)
Definition turn (i : nat) (c : Cluster) : Cluster :=
  match pool c !! i with
  | Some (Await call k) =>
      let (r, st') := perform call (shared c) in
      mkCluster (<[i := k r]> (pool c)) st'
                (history c ++ [(i, op_of call, is_fulfilled r)])
  | _ => c
  end.

(** The instances take turns in the order of [schedule]. *)
Definition interleave (schedule : list nat) (c : Cluster) : Cluster :=
  fold_left (fun c i => turn i c) schedule c.

(** The call a method is about to make, if it has not settled. *)
Definition next_call {A : Type} (p : Prog A) : option Op :=
  match p with
  | Await c _ => Some (op_of c)
  | _ => None
  end.

(** The number of lease creations that were fulfilled. *)
Definition leases_created (h : list (nat * Op * bool)) : nat :=
  length (List.filter (fun e => bool_decide (e.1.2 = OpLockCreate) && e.2) h).

(** The interleavings of the first two calls of two instances. *)
Definition acquisition_schedules : list (list nat) :=
  [[0; 0; 1; 1]; [0; 1; 0; 1]; [0; 1; 1; 0]; [1; 0; 0; 1]; [1; 0; 1; 0]; [1; 1; 0; 0]]%nat.

(** ** The services *)

Module IncidentsService.

(** [create(data)]: [this.prisma.incident.create({ data })]. *)
Definition create (data : CreateIncidentDto) : Prog Incident :=
  await (incident_create data).

End IncidentsService.

(** The clock readings of one detection tick: [new Date()] in [handleCron],
    [NOW()] in the baseline query, [Date.now()] in [runDetection]. *)
Record TickClock : Set := mkTickClock {
  cron_now : Millis;
  sql_now : Millis;
  detect_now : Millis
}.

Module DetectionService.

Definition Z_SCORE_THRESHOLD : float := 3%float.
Definition MIN_ERROR_COUNT : Z := 5.
Definition BASELINE_WINDOW_MINUTES : Z := 30.
Definition MIN_BASELINE_BUCKETS : nat := 5.

Definition lockId : string := "detection_service_lock".

(** Step 2 of [runDetection]: mean and standard deviation of the baseline. *)
Definition mean (values : list float) : float :=
  PrimFloat.div (fold_left (fun a b => PrimFloat.add a b) values 0%float)
                (ES.Number (Z.of_nat (length values))).

Definition variance (values : list float) : float :=
  let mean := mean values in
  PrimFloat.div
    (fold_left (fun a b => PrimFloat.add a (ES.Math_pow_2 (PrimFloat.sub b mean)))
               values 0%float)
    (ES.Number (Z.of_nat (length values))).

Definition stdDev (values : list float) : float := ES.Math_sqrt (variance values).

(** Step 4: the Z-score, with the cold-start branch. *)
Definition zScore (values : list float) (currentErrorCount : Z) : float :=
  let mean := mean values in
  let stdDev := stdDev values in
  if PrimFloat.eqb stdDev 0%float then
    if PrimFloat.ltb mean (ES.Number currentErrorCount) then 999%float else 0%float
  else PrimFloat.div (PrimFloat.sub (ES.Number currentErrorCount) mean) stdDev.

(** Step 5: the condition of the alert. *)
Definition anomaly (zScore : float) (currentErrorCount : Z) : bool :=
  PrimFloat.ltb Z_SCORE_THRESHOLD zScore && (MIN_ERROR_COUNT <? currentErrorCount).

(** The incident [runDetection] asks for. *)
Definition incident_data (zScore : float) (currentErrorCount : Z) : CreateIncidentDto :=
  let severity := if PrimFloat.ltb 5%float zScore then CRITICAL else HIGH in
  mkCreateIncidentDto
    ("Anomaly Detected: Error Spike (Z-Score: " +:+ ES.toFixed 2 zScore
       +:+ ", Count: " +:+ ES.digits currentErrorCount +:+ ")")
    severity
    OPEN.

(** The filter shared by the count of step 3 and the correlating update. *)
Definition uncorrelated_errors_since (oneMinuteAgo : Millis) : LogWhere :=
  mkLogWhere ERROR oneMinuteAgo None.

(** [runDetection()].  Calls of [this.logger] write to the console only and
    are left out. *)
Definition runDetection (clk : TickClock) : Prog unit :=
  let! baselineMetrics := await (queryRaw_baseline (sql_now clk)) in
  if (length baselineMetrics <? MIN_BASELINE_BUCKETS)%nat then Return tt
  else
    let values := map (fun m => ES.Number (loading m)) baselineMetrics in
    let oneMinuteAgo := detect_now clk - 60 * 1000 in
    let! currentErrorCount := await (log_count (uncorrelated_errors_since oneMinuteAgo)) in
    let zScore := zScore values currentErrorCount in
    if anomaly zScore currentErrorCount then
      (let! incident := IncidentsService.create (incident_data zScore currentErrorCount) in
       let! updated := await (log_updateMany (uncorrelated_errors_since oneMinuteAgo)
                                        (incident_id incident)) in
       Return tt)
    else Return tt.

(** The lease row [handleCron] creates. *)
Definition lease (now : Millis) : CronLock := mkCronLock lockId now (now + 9000).

(** [handleCron()], from the creation of the lease on. *)
Definition acquire_and_run (clk : TickClock) : Prog unit :=
  let! created := try_catch (let! row := await (cronLock_create (lease (cron_now clk))) in
                             Return true)
                            (fun _ => Return false) in
  if created : bool then
    try_finally (runDetection clk) (catch_ignore (await (cronLock_delete lockId)))
  else Return tt.

(** [handleCron()]. *)
Definition handleCron (clk : TickClock) : Prog unit :=
  let now := cron_now clk in
  let! existingLock := await (cronLock_findUnique lockId) in
  match existingLock with
  | Some existing =>
      if now <? expiry existing then Return tt
      else
        let! stale := catch_ignore (await (cronLock_delete lockId)) in
        acquire_and_run clk
  | None => acquire_and_run clk
  end.

End DetectionService.

Module IngestionService.

(** [processLog(logDto)].  The logger calls are left out. *)
Definition processLog (logDto : CreateLogDto) : Prog Log :=
  try_catch
    (let! log := await (log_create
                     (mkLogCreateInput (service_id logDto) (level logDto)
                        (message logDto) (timestamp logDto)
                        (default [] (metadata logDto)))) in
     Return log)
    (fun error => Throw error).

End IngestionService.

Import DetectionService.
Import IngestionService.

(** ** What one detection tick observes and writes *)

(** The [n]-th call from now on is answered by the database. *)
Definition answered (n : nat) (w : World) : bool := negb (nth n (outages w) false).

(** The world after the calls [events] have been made, leaving the database
    as [st]. *)
Definition after (w : World) (st : Store) (events : list (Op * bool)) : World :=
  mkWorld st (drop (length events) (outages w)) (journal w ++ events).

Definition baselineMetrics (clk : TickClock) (st : Store) : list BaselineRow :=
  baseline_query (sql_now clk) (logs st).

Definition values (clk : TickClock) (st : Store) : list float :=
  map (fun m => ES.Number (loading m)) (baselineMetrics clk st).

Definition oneMinuteAgo (clk : TickClock) : Millis := detect_now clk - 60 * 1000.

Definition currentErrorCount (clk : TickClock) (st : Store) : Z :=
  Z.of_nat (length (List.filter (matches (uncorrelated_errors_since (oneMinuteAgo clk)))
                                (logs st))).

Definition score (clk : TickClock) (st : Store) : float :=
  zScore (values clk st) (currentErrorCount clk st).

(** The incident row of an alert, and the database after it was inserted and
    after the triggering records were correlated to it. *)
Definition alert (clk : TickClock) (st : Store) : Incident :=
  let data := incident_data (score clk st) (currentErrorCount clk st) in
  mkIncident (next_id st) (title data) (severity data) (status data).

Definition with_incident (clk : TickClock) (st : Store) : Store :=
  mkStore (logs st) (incidents st ++ [alert clk st]) (cronLocks st) (S (next_id st)).

Definition correlated (clk : TickClock) (st : Store) : Store :=
  mkStore (map (fun l => if matches (uncorrelated_errors_since (oneMinuteAgo clk)) l
                         then set_incident_id (next_id st) l else l) (logs st))
          (incidents st ++ [alert clk st]) (cronLocks st) (S (next_id st)).

(** The ways a run of [runDetection] ends, by the answers of the database. *)
Inductive TickResult (clk : TickClock) (w : World) : Outcome unit -> World -> Prop :=
| tick_baseline_failed :
    answered 0 w = false ->
    TickResult clk w (Rejected P1001) (after w (db w) [(OpBaseline, false)])
| tick_warm_up :
    answered 0 w = true ->
    (length (baselineMetrics clk (db w)) < MIN_BASELINE_BUCKETS)%nat ->
    TickResult clk w (Fulfilled tt) (after w (db w) [(OpBaseline, true)])
| tick_count_failed :
    answered 0 w = true ->
    (MIN_BASELINE_BUCKETS <= length (baselineMetrics clk (db w)))%nat ->
    answered 1 w = false ->
    TickResult clk w (Rejected P1001)
      (after w (db w) [(OpBaseline, true); (OpLogCount, false)])
| tick_no_anomaly :
    answered 0 w = true ->
    (MIN_BASELINE_BUCKETS <= length (baselineMetrics clk (db w)))%nat ->
    answered 1 w = true ->
    anomaly (score clk (db w)) (currentErrorCount clk (db w)) = false ->
    TickResult clk w (Fulfilled tt)
      (after w (db w) [(OpBaseline, true); (OpLogCount, true)])
| tick_create_failed :
    answered 0 w = true ->
    (MIN_BASELINE_BUCKETS <= length (baselineMetrics clk (db w)))%nat ->
    answered 1 w = true ->
    anomaly (score clk (db w)) (currentErrorCount clk (db w)) = true ->
    answered 2 w = false ->
    TickResult clk w (Rejected P1001)
      (after w (db w) [(OpBaseline, true); (OpLogCount, true); (OpIncidentCreate, false)])
| tick_update_failed :
    answered 0 w = true ->
    (MIN_BASELINE_BUCKETS <= length (baselineMetrics clk (db w)))%nat ->
    answered 1 w = true ->
    anomaly (score clk (db w)) (currentErrorCount clk (db w)) = true ->
    answered 2 w = true ->
    answered 3 w = false ->
    TickResult clk w (Rejected P1001)
      (after w (with_incident clk (db w))
         [(OpBaseline, true); (OpLogCount, true); (OpIncidentCreate, true);
          (OpLogUpdateMany, false)])
| tick_alert :
    answered 0 w = true ->
    (MIN_BASELINE_BUCKETS <= length (baselineMetrics clk (db w)))%nat ->
    answered 1 w = true ->
    anomaly (score clk (db w)) (currentErrorCount clk (db w)) = true ->
    answered 2 w = true ->
    answered 3 w = true ->
    TickResult clk w (Fulfilled tt)
      (after w (correlated clk (db w))
         [(OpBaseline, true); (OpLogCount, true); (OpIncidentCreate, true);
          (OpLogUpdateMany, true)]).


(** *** Answering the pending call of a program directly *)

(** The program after its pending baseline query resolved to [rows], and
    after its pending count resolved to [n]: what a test double of the Prisma
    client does. *)
Definition resolve_baseline {A : Type} (rows : list BaselineRow) (p : Prog A) : Prog A :=
  match p with
  | Await c k =>
      match c in Call R return (Outcome R -> Prog A) -> Prog A with
      | queryRaw_baseline _ => fun k => k (Fulfilled rows)
      | _ => fun _ => p
      end k
  | _ => p
  end.

Definition resolve_count {A : Type} (n : Z) (p : Prog A) : Prog A :=
  match p with
  | Await c k =>
      match c in Call R return (Outcome R -> Prog A) -> Prog A with
      | log_count _ => fun k => k (Fulfilled n)
      | _ => fun _ => p
      end k
  | _ => p
  end.

(** The incident a program is about to create, if that is its pending call. *)
Definition requested_incident {A : Type} (p : Prog A) : option CreateIncidentDto :=
  match p with
  | Await (incident_create data) _ => Some data
  | _ => None
  end.

(** ** Sample data *)

Module Sample.

Definition error_log (i : Id) (t : Millis) : Log :=
  mkLog i "payment-service" ERROR "Payment gateway timeout" t [] None.

(** [n] ERROR records, one millisecond apart, from [t] on. *)
Fixpoint burst (first : Id) (n : nat) (t : Millis) : list Log :=
  match n with
  | O => []
  | S n' => error_log first t :: burst (S first) n' (t + 1)
  end.

(** One ERROR record per minute for [k] minutes, from [t] on. *)
Fixpoint quiet (first : Id) (k : nat) (t : Millis) : list Log :=
  match k with
  | O => []
  | S k' => error_log first t :: quiet (S first) k' (t + 60000)
  end.

(** Twelve quiet minutes, then twenty errors within ten seconds of the
    tick at 2000 s. *)
Definition spike : Store :=
  mkStore (quiet 0%nat 12 600000 ++ burst 100%nat 20 1990000) [] ∅ 200%nat.

(** Six quiet minutes only. *)
Definition calm : Store := mkStore (quiet 0%nat 6 1600000) [] ∅ 200%nat.

(** Three quiet minutes and the burst: four buckets, not enough history. *)
Definition young : Store :=
  mkStore (quiet 0%nat 3 1600000 ++ burst 100%nat 20 1990000) [] ∅ 200%nat.

(** The spike, with a lease left behind by a holder that never released
    it and that expired long ago. *)
Definition spike_stale_lease : Store :=
  mkStore (logs spike) [] {[ lockId := mkCronLock lockId 1000 10000 ]} 200%nat.

(** The spike, with a lease taken one second before the tick. *)
Definition spike_live_lease : Store :=
  mkStore (logs spike) [] {[ lockId := lease 1999000 ]} 200%nat.

Definition tick : TickClock := mkTickClock 2000000 2000000 2000000.

Definition record : CreateLogDto :=
  mkCreateLogDto "payment-service" ERROR "Payment gateway timeout" 2000000
                 (Some [("transaction_id", "tx_12345")]).

Definition bucket (k : Z) (n : Z) : BaselineRow := mkBaselineRow (60000 * k) n.

(** Baseline buckets [0,0,0,0,0]. *)
Definition silent_buckets : list BaselineRow :=
  [bucket 5 0; bucket 4 0; bucket 3 0; bucket 2 0; bucket 1 0].

(** Baseline buckets [2,3,2,4,3]. *)
Definition steady_buckets : list BaselineRow :=
  [bucket 5 2; bucket 4 3; bucket 3 2; bucket 2 4; bucket 1 3].

End Sample.

(** ** The first detection service *)

(** [src/unnamed/part_004]: the [DetectionService] with a fixed threshold,
    which the Z-score engine replaced. *)
Module StaticDetectionService.

(** The incident its [handleCron] asks for. *)
Definition incident_data (recentErrorCount : Z) : CreateIncidentDto :=
  mkCreateIncidentDto
    ("High Error Rate Detected: " +:+ ES.digits recentErrorCount
       +:+ " errors in last minute")
    HIGH
    OPEN.

(** [handleCron()].  The logger calls are left out. *)
Definition handleCron (clk : TickClock) : Prog unit :=
  let oneMinuteAgo := detect_now clk - 60 * 1000 in
  let! recentErrorCount := await (log_count (mkLogWhere ERROR oneMinuteAgo None)) in
  if 5 <? recentErrorCount then
    (let! incident := IncidentsService.create (incident_data recentErrorCount) in
     let! updated := await (log_updateMany (mkLogWhere ERROR oneMinuteAgo None)
                                           (incident_id incident)) in
     Return tt)
  else Return tt.

End StaticDetectionService.

(** ** Reading an incident *)

(** What [IncidentsService.findOne(id)] resolves to:
    [incident.findUnique({ where: { id }, include: { logs: true } })], the
    row with that id together with the records correlated to it. *)
Definition findOne (i : Id) (st : Store) : option (Incident * list Log) :=
  match List.find (fun inc => bool_decide (incident_id inc = i)) (incidents st) with
  | Some inc =>
      Some (inc, List.filter (fun l => bool_decide (log_incident_id l = Some i)) (logs st))
  | None => None
  end.

(** Identifiers in use lie below the counter: the ids of the incidents, and
    the incident ids the records refer to. *)
Definition ids_below_counter (st : Store) : bool :=
  forallb (fun inc => (incident_id inc <? next_id st)%nat) (incidents st)
  && forallb (fun l => match log_incident_id l with
                       | Some i => (i <? next_id st)%nat
                       | None => true
                       end) (logs st).

(** ** Further observations *)

(** The calls [runDetection] makes. *)
Definition detection_ops : list Op :=
  [OpBaseline; OpLogCount; OpIncidentCreate; OpLogUpdateMany].

(** The sum of the counts of all buckets. *)
Definition total_loading (rows : list BaselineRow) : Z :=
  fold_right (fun r total => loading r + total) 0 rows.

(** The ERROR records of the last 30 minutes, as the baseline query selects
    them. *)
Definition in_baseline_window (sql_now : Millis) (l : Log) : bool :=
  bool_decide (log_level l = ERROR) && (sql_now - 30 * 60000 <? log_timestamp l).

(** The record [processLog] stores for a request body. *)
Definition stored_record (i : Id) (logDto : CreateLogDto) : Log :=
  mkLog i (service_id logDto) (level logDto) (message logDto) (timestamp logDto)
        (default [] (metadata logDto)) None.

(** The rejections [handleCron] swallows are those of the calls that delete
    or create the lease; any other rejected call is fatal to the tick. *)
Definition swallowed (op : Op) : bool :=
  bool_decide (op = OpLockDelete) || bool_decide (op = OpLockCreate).

Definition fatal_rejection (ev : Op * bool) : bool := negb ev.2 && negb (swallowed ev.1).

(** The calls made between two worlds of one run. *)
Definition calls_since (w w' : World) : list (Op * bool) :=
  drop (length (journal w)) (journal w').


(** ** The protected section *)

(** The method holds the lease and is inside the protected section:
    whatever the database answers from here on, it makes calls of
    [runDetection] only, then the delete that releases the lease, and it
    settles right after that delete. *)
Inductive Protected : Prog unit -> Prop :=
| protected_release (k : Outcome CronLock -> Prog unit) :
    (forall r, next_call (k r) = None) ->
    Protected (Await (cronLock_delete lockId) k)
| protected_call {R : Type} (c : Call R) (k : Outcome R -> Prog unit) :
    In (op_of c) detection_ops ->
    (forall r, Protected (k r)) ->
    Protected (Await c k).

(** On every path through the method, a fulfilled creation of a lease is
    followed by the protected section. *)
Inductive ReleasesAfterCreate : Prog unit -> Prop :=
| releases_settled (p : Prog unit) :
    next_call p = None ->
    ReleasesAfterCreate p
| releases_create (data : CronLock) (k : Outcome CronLock -> Prog unit) :
    (forall row, Protected (k (Fulfilled row))) ->
    (forall e, ReleasesAfterCreate (k (Rejected e))) ->
    ReleasesAfterCreate (Await (cronLock_create data) k)
| releases_other {R : Type} (c : Call R) (k : Outcome R -> Prog unit) :
    op_of c <> OpLockCreate ->
    (forall r, ReleasesAfterCreate (k r)) ->
    ReleasesAfterCreate (Await c k).

(** Where an instance of [handleCron] stands when no stale lease is around:
    about to read the lease row, about to create its own, inside the
    protected section, or settled. *)
Inductive Stage : Set := Reading | Acquiring | Holding | Settled.

Definition at_stage (clk : TickClock) (s : Stage) (p : Prog unit) : Prop :=
  match s with
  | Reading => p = handleCron clk
  | Acquiring => p = acquire_and_run clk
  | Holding => Protected p
  | Settled => next_call p = None
  end.

(** The lease row that goes with the stages of two instances: the row of the
    one that holds, none when neither does; both never hold. *)
Definition table_ok (clk clk' : TickClock) (s s' : Stage) (row : option CronLock) : Prop :=
  match s, s' with
  | Holding, Holding => False
  | Holding, _ => row = Some (lease (cron_now clk))
  | _, Holding => row = Some (lease (cron_now clk'))
  | _, _ => row = None
  end.

(** Two instances, each at a stage, and the lease table in step with them. *)
Definition lease_exclusion (clkA clkB : TickClock) (c : Cluster) : Prop :=
  exists (sA sB : Stage) (pA pB : Prog unit),
    pool c = [pA; pB]
    /\ at_stage clkA sA pA
    /\ at_stage clkB sB pB
    /\ table_ok clkA clkB sA sB (cronLocks (shared c) !! lockId).


(** * Properties *)

(** ** Running programs *)

Lemma run_bind {A B : Type} (p : Prog A) (f : A -> Prog B) (w : World) :
  run (bind p f) w =
    match run p w with
    | (Fulfilled a, w') => run (f a) w'
    | (Rejected e, w') => (Rejected e, w')
    end.
Proof.
  revert w. induction p as [a|e|R c k IH]; intros w; cbn [bind run]; try reflexivity.
  destruct (step_call c w) as [r w']. apply IH.
Qed.

Lemma run_try_finally {A : Type} (p : Prog A) (q : Prog unit) (w : World) :
  run (try_finally p q) w =
    match run q (run p w).2 with
    | (Fulfilled _, w') => ((run p w).1, w')
    | (Rejected e, w') => (Rejected e, w')
    end.
Proof.
  revert w. induction p as [a|e|R c k IH]; intros w; cbn [try_finally run fst snd].
  - rewrite run_bind. destruct (run q w) as [[[]|e] w']; reflexivity.
  - rewrite run_bind. destruct (run q w) as [[[]|e'] w']; reflexivity.
  - destruct (step_call c w) as [r w']. apply IH.
Qed.

Lemma run_catch_ignore_await {R : Type} (c : Call R) (w : World) :
  run (catch_ignore (await c)) w = (Fulfilled tt, (step_call c w).2).
Proof.
  unfold catch_ignore, await. cbn [bind try_catch run].
  destruct (step_call c w) as [[a|e] w']; reflexivity.
Qed.

Lemma step_call_world {R : Type} (c : Call R) (w : World) :
  step_call c w =
    if answered 0 w
    then ((perform c (db w)).1,
          after w (perform c (db w)).2 [(op_of c, is_fulfilled (perform c (db w)).1)])
    else (Rejected P1001, after w (db w) [(op_of c, false)]).
Proof.
  unfold step_call, answered, after. destruct w as [st outs jr]; cbn [outages db journal].
  destruct outs as [|[] rest]; cbn; try reflexivity;
    destruct (perform c st); reflexivity.
Qed.

Lemma db_after (w : World) (st : Store) (events : list (Op * bool)) :
  db (after w st events) = st.
Proof. reflexivity. Qed.

Lemma answered_after (n : nat) (w : World) (st : Store) (events : list (Op * bool)) :
  answered n (after w st events) = answered (length events + n) w.
Proof.
  unfold answered, after. cbn [outages]. f_equal.
  generalize (outages w) as outs. generalize (length events) as k.
  induction k as [|k IH]; intros [|o outs]; cbn; try reflexivity.
  all: try (destruct n; reflexivity).
  apply IH.
Qed.

Lemma after_after (w : World) (st1 st2 : Store) (ev1 ev2 : list (Op * bool)) :
  after (after w st1 ev1) st2 ev2 = after w st2 (ev1 ++ ev2).
Proof.
  unfold after. cbn [outages journal]. f_equal.
  - rewrite drop_drop, length_app. reflexivity.
  - rewrite app_assoc. reflexivity.
Qed.

(** Symbolic execution of a run, one call at a time. *)
Ltac exec_call :=
  cbn [run bind await try_catch];
  rewrite step_call_world;
  rewrite ?answered_after; cbn [length Nat.add].

Ltac exec_done :=
  cbn [run bind fst snd perform is_fulfilled op_of];
  rewrite ?db_after, ?after_after; cbn [app db].

(** Every run of [runDetection] ends in one of the seven ways. *)
Lemma runDetection_result (clk : TickClock) (w : World) :
  TickResult clk w (run (runDetection clk) w).1 (run (runDetection clk) w).2.
Proof.
  unfold runDetection. exec_call.
  destruct (answered 0 w) eqn:A0; exec_done.
  2:{ apply tick_baseline_failed. exact A0. }
  destruct (Nat.ltb_spec (length (baseline_query (sql_now clk) (logs (db w))))
              MIN_BASELINE_BUCKETS) as [Hlt|Hge].
  { apply tick_warm_up; assumption. }
  exec_call. destruct (answered 1 w) eqn:A1; exec_done.
  2:{ apply tick_count_failed; assumption. }
  destruct (anomaly _ _) eqn:Han.
  2:{ exec_done. apply tick_no_anomaly; assumption. }
  unfold IncidentsService.create. exec_call.
  destruct (answered 2 w) eqn:A2; exec_done.
  2:{ apply tick_create_failed; assumption. }
  exec_call. destruct (answered 3 w) eqn:A3; exec_done.
  - apply tick_alert; assumption.
  - apply tick_update_failed; assumption.
Qed.

(** ** The baseline query *)

Lemma tally_HdRel (r : BaselineRow) (bucket : Millis) (rows : list BaselineRow) :
  bucket < time_bucket r -> HdRel newer r rows -> HdRel newer r (tally bucket rows).
Proof.
  intros Hlt Hhd. destruct rows as [|r' rest]; cbn [tally].
  - constructor. exact Hlt.
  - inversion Hhd; subst.
    destruct (time_bucket r' =? bucket); [constructor; exact Hlt|].
    destruct (time_bucket r' <? bucket); constructor; assumption.
Qed.

Lemma tally_sorted (bucket : Millis) (rows : list BaselineRow) :
  Sorted newer rows -> Sorted newer (tally bucket rows).
Proof.
  induction rows as [|r rest IH]; intros Hs; cbn [tally].
  - repeat constructor.
  - inversion Hs as [|? ? Hrest Hhd]; subst.
    destruct (Z.eqb_spec (time_bucket r) bucket) as [Heq|Hne].
    + constructor; [exact Hrest|].
      destruct rest as [|r' rest']; constructor.
      inversion Hhd; subst. unfold newer in *. cbn [time_bucket]. lia.
    + destruct (Z.ltb_spec (time_bucket r) bucket) as [Hlt|Hge].
      * constructor; [exact Hs|]. constructor. exact Hlt.
      * constructor; [apply IH; exact Hrest|].
        apply tally_HdRel; [lia|exact Hhd].
Qed.

Lemma tally_positive (bucket : Millis) (rows : list BaselineRow) :
  Forall (fun r => 1 <= loading r) rows ->
  Forall (fun r => 1 <= loading r) (tally bucket rows).
Proof.
  induction rows as [|r rest IH]; intros Hall; cbn [tally].
  - repeat constructor. cbn. lia.
  - inversion Hall; subst.
    destruct (time_bucket r =? bucket); [constructor; [cbn; lia|assumption]|].
    destruct (time_bucket r <? bucket).
    + constructor; [cbn; lia|exact Hall].
    + constructor; [assumption|apply IH; assumption].
Qed.

(** The buckets of the baseline query come newest first, one per minute,
    and none of them is empty: a minute without ERROR records has no
    bucket. *)
Lemma baseline_query_buckets (sql_now : Millis) (ls : list Log) :
  Sorted newer (baseline_query sql_now ls)
  /\ Forall (fun r => 1 <= loading r) (baseline_query sql_now ls).
Proof.
  unfold baseline_query.
  generalize (List.filter (fun l => bool_decide (log_level l = ERROR)
                                    && (sql_now - 30 * 60000 <? log_timestamp l)) ls).
  intros selected.
  assert (H : Sorted newer [] /\ Forall (fun r : BaselineRow => 1 <= loading r) [])
    by (split; constructor).
  revert H. generalize (@nil BaselineRow) as rows.
  induction selected as [|l rest IH]; intros rows [Hs Hp]; cbn [fold_left].
  - split; assumption.
  - apply IH. split; [apply tally_sorted|apply tally_positive]; assumption.
Qed.

Lemma tally_loading (bucket b : Millis) (rows : list BaselineRow) :
  loading_of b (tally bucket rows) =
    loading_of b rows + (if bucket =? b then 1 else 0).
Proof.
  induction rows as [|r rest IH]; cbn [tally loading_of fold_right].
  - cbn [time_bucket loading]. destruct (bucket =? b); lia.
  - destruct (Z.eqb_spec (time_bucket r) bucket) as [Heq|Hne].
    + cbn [loading_of fold_right time_bucket loading]. rewrite Heq.
      destruct (bucket =? b); lia.
    + destruct (time_bucket r <? bucket).
      * cbn [loading_of fold_right time_bucket loading].
        destruct (bucket =? b); destruct (time_bucket r =? b); lia.
      * cbn [loading_of fold_right]. fold (loading_of b (tally bucket rest)).
        fold (loading_of b rest). rewrite IH.
        destruct (time_bucket r =? b); lia.
Qed.

(** The loading of a minute is the number of ERROR records of the last 30
    minutes that fall into it. *)
Lemma baseline_query_loading (sql_now b : Millis) (ls : list Log) :
  loading_of b (baseline_query sql_now ls) =
    Z.of_nat (length (List.filter
                        (fun l => bool_decide (log_level l = ERROR)
                                  && (sql_now - 30 * 60000 <? log_timestamp l)
                                  && (date_trunc_minute (log_timestamp l) =? b)) ls)).
Proof.
  unfold baseline_query.
  assert (Hgen : forall (selected : list Log) (rows : list BaselineRow),
    loading_of b (fold_left (fun rows l => tally (date_trunc_minute (log_timestamp l)) rows)
                            selected rows) =
      loading_of b rows
      + Z.of_nat (length (List.filter
                            (fun l => date_trunc_minute (log_timestamp l) =? b) selected))).
  { induction selected as [|l rest IH]; intros rows; cbn [fold_left List.filter length].
    - lia.
    - rewrite IH, tally_loading.
      destruct (date_trunc_minute (log_timestamp l) =? b); cbn [length]; lia. }
  rewrite Hgen. cbn [loading_of fold_right]. rewrite Z.add_0_l. f_equal. f_equal.
  induction ls as [|l rest IH]; [reflexivity|].
  cbn [List.filter].
  destruct (bool_decide (log_level l = ERROR) && (sql_now - 30 * 60000 <? log_timestamp l));
    cbn [andb List.filter].
  - destruct (date_trunc_minute (log_timestamp l) =? b); [f_equal|]; exact IH.
  - exact IH.
Qed.

(** ** The detection pass *)

Lemma run_runDetection_inv (clk : TickClock) (w : World) (r : Outcome unit) (w' : World) :
  run (runDetection clk) w = (r, w') -> TickResult clk w r w'.
Proof.
  intros Hrun. pose proof (runDetection_result clk w) as H.
  rewrite Hrun in H. exact H.
Qed.

Lemma anomaly_spec (z : float) (current : Z) :
  anomaly z current = true <-> PrimFloat.ltb 3 z = true /\ 5 < current.
Proof.
  unfold anomaly, Z_SCORE_THRESHOLD, MIN_ERROR_COUNT.
  rewrite andb_true_iff, Z.ltb_lt. reflexivity.
Qed.

(** Neither threshold alone declares an anomaly. *)
Lemma noise_guard (z : float) (current : Z) :
  current <= 5 -> anomaly z current = false.
Proof.
  intros Hle. unfold anomaly, MIN_ERROR_COUNT.
  rewrite (proj2 (Z.ltb_ge 5 current) Hle). apply andb_false_r.
Qed.

Lemma significance_guard (z : float) (current : Z) :
  PrimFloat.ltb 3 z = false -> anomaly z current = false.
Proof.
  intros Hz. unfold anomaly, Z_SCORE_THRESHOLD. rewrite Hz. reflexivity.
Qed.

Lemma app_singleton_neq {A : Type} (l : list A) (x : A) : l ++ [x] <> l.
Proof.
  intros H. apply (f_equal length) in H. rewrite length_app in H. cbn in H. lia.
Qed.

(** During warm-up a run of [runDetection] leaves the database as it was,
    whatever the database answers. *)
Lemma runDetection_warm_up_frame (clk : TickClock) (w : World) :
  (length (baselineMetrics clk (db w)) < MIN_BASELINE_BUCKETS)%nat ->
  db (run (runDetection clk) w).2 = db w.
Proof.
  intros Hlen. destruct (run (runDetection clk) w) as [r w'] eqn:Hrun.
  apply run_runDetection_inv in Hrun.
  inversion Hrun; subst; cbn [snd db after]; try reflexivity; lia.
Qed.

(** The calls on the lease table leave the other tables alone. *)
Lemma lease_call_frame {R : Type} (c : Call R) (w : World) :
  In (op_of c) [OpLockFind; OpLockDelete; OpLockCreate] ->
  logs (db (step_call c w).2) = logs (db w)
  /\ incidents (db (step_call c w).2) = incidents (db w).
Proof.
  intros Hop. rewrite step_call_world.
  destruct (answered 0 w); [|split; reflexivity].
  destruct c; cbn [perform snd db after];
    try (cbn in Hop; intuition discriminate);
    try match goal with
        | |- context [cronLocks ?st !! ?k] => destruct (cronLocks st !! k)
        end; split; reflexivity.
Qed.

(** What a tick observes depends on the Log table only. *)
Lemma observations_of_logs (clk : TickClock) (st1 st2 : Store) :
  logs st1 = logs st2 ->
  baselineMetrics clk st1 = baselineMetrics clk st2
  /\ currentErrorCount clk st1 = currentErrorCount clk st2
  /\ score clk st1 = score clk st2.
Proof.
  intros Hlogs. unfold score, values, baselineMetrics, currentErrorCount.
  rewrite Hlogs. repeat split.
Qed.

(** Without an anomaly a run of [runDetection] leaves the database as it
    was, whatever the database answers. *)
Lemma runDetection_quiet_frame (clk : TickClock) (w : World) :
  anomaly (score clk (db w)) (currentErrorCount clk (db w)) = false ->
  db (run (runDetection clk) w).2 = db w.
Proof.
  intros Hquiet. destruct (run (runDetection clk) w) as [r w'] eqn:Hrun.
  apply run_runDetection_inv in Hrun.
  inversion Hrun; subst; cbn [snd db after]; try reflexivity; congruence.
Qed.

(** When [runDetection] writes nothing on the records at hand, the whole
    tick writes the lease row only: the Log and Incident tables are as they
    were when [handleCron] returns. *)
Lemma tick_frame (clk : TickClock) (w : World) :
  (forall w2 : World,
     logs (db w2) = logs (db w) -> db (run (runDetection clk) w2).2 = db w2) ->
  logs (db (run (handleCron clk) w).2) = logs (db w)
  /\ incidents (db (run (handleCron clk) w).2) = incidents (db w).
Proof.
  intros Hframe.
  assert (Hacq : forall w1 : World,
    logs (db w1) = logs (db w) -> incidents (db w1) = incidents (db w) ->
    logs (db (run (acquire_and_run clk) w1).2) = logs (db w)
    /\ incidents (db (run (acquire_and_run clk) w1).2) = incidents (db w)).
  { intros w1 Hl Hi. unfold acquire_and_run.
    rewrite run_bind. cbn [run bind await try_catch].
    destruct (lease_call_frame (cronLock_create (lease (cron_now clk))) w1)
      as [Hl1 Hi1]; [cbn; auto|].
    destruct (step_call (cronLock_create (lease (cron_now clk))) w1) as [[row|e] w2];
      cbn [run bind try_catch snd] in *.
    2:{ split; congruence. }
    rewrite run_try_finally, run_catch_ignore_await. cbn [snd].
    destruct (lease_call_frame (cronLock_delete lockId) (run (runDetection clk) w2).2)
      as [Hl3 Hi3]; [cbn; auto|].
    rewrite Hl3, Hi3, Hframe by congruence.
    split; congruence. }
  unfold handleCron. cbn [run bind await].
  destruct (lease_call_frame (cronLock_findUnique lockId) w) as [Hl0 Hi0]; [cbn; auto|].
  destruct (step_call (cronLock_findUnique lockId) w) as [[[existing|]|e] w0];
    cbn [run bind snd] in *.
  - destruct (cron_now clk <? expiry existing); [split; assumption|].
    rewrite run_bind, run_catch_ignore_await.
    destruct (lease_call_frame (cronLock_delete lockId) w0) as [Hl1 Hi1]; [cbn; auto|].
    apply Hacq; congruence.
  - apply Hacq; assumption.
  - split; assumption.
Qed.

Lemma warm_up_tick_frame (clk : TickClock) (w : World) :
  (length (baselineMetrics clk (db w)) < MIN_BASELINE_BUCKETS)%nat ->
  logs (db (run (handleCron clk) w).2) = logs (db w)
  /\ incidents (db (run (handleCron clk) w).2) = incidents (db w).
Proof.
  intros Hlen. apply tick_frame. intros w2 Hlogs.
  apply runDetection_warm_up_frame.
  destruct (observations_of_logs clk (db w2) (db w) Hlogs) as (-> & _ & _). exact Hlen.
Qed.

Lemma quiet_tick_frame (clk : TickClock) (w : World) :
  anomaly (score clk (db w)) (currentErrorCount clk (db w)) = false ->
  logs (db (run (handleCron clk) w).2) = logs (db w)
  /\ incidents (db (run (handleCron clk) w).2) = incidents (db w).
Proof.
  intros Hquiet. apply tick_frame. intros w2 Hlogs.
  apply runDetection_quiet_frame.
  destruct (observations_of_logs clk (db w2) (db w) Hlogs) as (_ & -> & ->). exact Hquiet.
Qed.

(** C9.  Warm-up guard: when the baseline query returns fewer than 5
    per-minute buckets, runDetection returns at once, the baseline query
    being the only call it makes, and it leaves the database as it was; over
    the whole tick no incident is created and no log record is modified
    (the tick writes its lease row only). *)
Theorem warm_up_guard_no_writes (clk : TickClock) (w : World) :
  (length (baselineMetrics clk (db w)) < MIN_BASELINE_BUCKETS)%nat ->
  (answered 0 w = true ->
   run (runDetection clk) w = (Fulfilled tt, after w (db w) [(OpBaseline, true)]))
  /\ db (run (runDetection clk) w).2 = db w
  /\ logs (db (run (handleCron clk) w).2) = logs (db w)
  /\ incidents (db (run (handleCron clk) w).2) = incidents (db w).
Proof.
  intros Hlen. split; [|split].
  - intros Hans.
    destruct (run (runDetection clk) w) as [r w'] eqn:Hrun.
    apply run_runDetection_inv in Hrun.
    inversion Hrun; subst; try reflexivity; try congruence; lia.
  - apply runDetection_warm_up_frame. exact Hlen.
  - apply warm_up_tick_frame. exact Hlen.
Qed.

Lemma warm_up_guard_no_writes_witness :
  let w := mkWorld Sample.young [] [] in
  (answered 0 w = true ->
   run (runDetection Sample.tick) w =
     (Fulfilled tt, after w Sample.young [(OpBaseline, true)]))
  /\ db (run (runDetection Sample.tick) w).2 = Sample.young
  /\ logs (db (run (handleCron Sample.tick) w).2) = logs Sample.young
  /\ incidents (db (run (handleCron Sample.tick) w).2) = incidents Sample.young.
Proof.
  apply (warm_up_guard_no_writes Sample.tick (mkWorld Sample.young [] [])).
  vm_compute. lia.
Defined.

(** C1.  Dual-threshold decision: on a tick that reaches the scoring step
    (the database answering, at least 5 baseline buckets), an incident is
    created if and only if both Z > 3.0 and the 60-second count of
    uncorrelated ERROR records is strictly greater than 5; when one of the
    two fails the database is left as it was, in particular when the count
    is 1, whatever Z is. *)
Theorem dual_threshold_decision (clk : TickClock) (w : World) :
  answered 0 w = true -> answered 1 w = true -> answered 2 w = true ->
  (MIN_BASELINE_BUCKETS <= length (baselineMetrics clk (db w)))%nat ->
  let Z := score clk (db w) in
  let current := currentErrorCount clk (db w) in
  let st' := db (run (runDetection clk) w).2 in
  ((exists incident, incidents st' = incidents (db w) ++ [incident])
     <-> PrimFloat.ltb 3 Z = true /\ 5 < current)
  /\ (~ (PrimFloat.ltb 3 Z = true /\ 5 < current) -> st' = db w)
  /\ (current = 1 -> st' = db w).
Proof.
  intros A0 A1 A2 Hlen Z current st'.
  assert (Hcases :
    (anomaly Z current = true /\ incidents st' = incidents (db w) ++ [alert clk (db w)])
    \/ (anomaly Z current = false /\ st' = db w)).
  { subst st'. destruct (run (runDetection clk) w) as [r w'] eqn:Hrun.
    apply run_runDetection_inv in Hrun.
    inversion Hrun; subst; cbn [snd db after]; try congruence; try lia.
    - right. split; [assumption|reflexivity].
    - left. split; [assumption|reflexivity].
    - left. split; [assumption|reflexivity]. }
  fold Z current in Hcases.
  split; [split|split].
  - intros [incident Hinc]. apply anomaly_spec.
    destruct Hcases as [[Han _]|[_ Hst]]; [exact Han|].
    rewrite Hst in Hinc. symmetry in Hinc. apply app_singleton_neq in Hinc. contradiction.
  - intros Hcond. apply anomaly_spec in Hcond.
    destruct Hcases as [[_ Hst]|[Han _]]; [|congruence].
    rewrite Hst. eexists. reflexivity.
  - intros Hnot. destruct Hcases as [[Han _]|[_ Hst]]; [|exact Hst].
    apply anomaly_spec in Han. contradiction.
  - intros Hone. destruct Hcases as [[Han _]|[_ Hst]]; [|exact Hst].
    apply anomaly_spec in Han. lia.
Qed.

(** On the spike, Z is about 3.46 and the count is 20: the incident is
    created. *)
Lemma dual_threshold_decision_witness :
  let st' := db (run (runDetection Sample.tick) (mkWorld Sample.spike [] [])).2 in
  ((exists incident, incidents st' = [] ++ [incident])
   <-> PrimFloat.ltb 3 (score Sample.tick Sample.spike) = true
       /\ 5 < currentErrorCount Sample.tick Sample.spike)
  /\ (~ (PrimFloat.ltb 3 (score Sample.tick Sample.spike) = true
         /\ 5 < currentErrorCount Sample.tick Sample.spike) -> st' = Sample.spike)
  /\ (currentErrorCount Sample.tick Sample.spike = 1 -> st' = Sample.spike).
Proof.
  apply (dual_threshold_decision Sample.tick (mkWorld Sample.spike [] [])).
  - reflexivity.
  - reflexivity.
  - reflexivity.
  - vm_compute. lia.
Defined.

(** A run of [runDetection] leaves the incidents as they were or adds the
    alert of the tick. *)
Lemma runDetection_incidents (clk : TickClock) (w : World) :
  let st' := db (run (runDetection clk) w).2 in
  incidents st' = incidents (db w)
  \/ (anomaly (score clk (db w)) (currentErrorCount clk (db w)) = true
      /\ incidents st' = incidents (db w) ++ [alert clk (db w)]).
Proof.
  cbn zeta. destruct (run (runDetection clk) w) as [r w'] eqn:Hrun.
  apply run_runDetection_inv in Hrun.
  inversion Hrun; subst; cbn [snd db after incidents with_incident correlated]; auto.
Qed.

(** A run of [runDetection] never touches the lease table. *)
Lemma runDetection_cronLocks (clk : TickClock) (w : World) :
  cronLocks (db (run (runDetection clk) w).2) = cronLocks (db w).
Proof.
  destruct (run (runDetection clk) w) as [r w'] eqn:Hrun.
  apply run_runDetection_inv in Hrun.
  inversion Hrun; subst; reflexivity.
Qed.

(** C10.  Every incident created by the anomaly branch of runDetection has
    status OPEN and severity HIGH or CRITICAL, and its title embeds the
    computed Z-score (two decimals) and the current error count. *)
Theorem created_incident_shape (clk : TickClock) (w : World) (incident : Incident) :
  In incident (incidents (db (run (runDetection clk) w).2)) ->
  ~ In incident (incidents (db w)) ->
  incident_status incident = OPEN
  /\ (incident_severity incident = HIGH \/ incident_severity incident = CRITICAL)
  /\ incident_title incident =
       "Anomaly Detected: Error Spike (Z-Score: "
         +:+ ES.toFixed 2 (score clk (db w))
         +:+ ", Count: " +:+ ES.digits (currentErrorCount clk (db w)) +:+ ")".
Proof.
  intros Hin Hnew.
  destruct (runDetection_incidents clk w) as [Hsame|[_ Hadd]].
  - rewrite Hsame in Hin. contradiction.
  - rewrite Hadd in Hin. apply in_app_or in Hin. destruct Hin as [Hold|[<-|[]]].
    + contradiction.
    + unfold alert, incident_data.
      cbn [incident_status incident_severity incident_title title severity status].
      repeat split.
      destruct (PrimFloat.ltb 5 (score clk (db w))); auto.
Qed.

Lemma created_incident_shape_witness :
  let incident :=
    mkIncident 200%nat "Anomaly Detected: Error Spike (Z-Score: 3.46, Count: 20)" HIGH OPEN in
  incident_status incident = OPEN
  /\ (incident_severity incident = HIGH \/ incident_severity incident = CRITICAL)
  /\ incident_title incident =
       "Anomaly Detected: Error Spike (Z-Score: "
         +:+ ES.toFixed 2 (score Sample.tick Sample.spike)
         +:+ ", Count: " +:+ ES.digits (currentErrorCount Sample.tick Sample.spike) +:+ ")".
Proof.
  apply (created_incident_shape Sample.tick (mkWorld Sample.spike [] [])).
  - vm_compute. left. reflexivity.
  - vm_compute. intros [].
Defined.

(** Once the records of a window are correlated, no later window holds an
    uncorrelated ERROR record of the same data. *)
Lemma correlated_window_empty (c1 c2 : Millis) (i : Id) (ls : list Log) :
  c1 <= c2 ->
  List.filter (matches (uncorrelated_errors_since c2))
    (map (fun l => if matches (uncorrelated_errors_since c1) l
                   then set_incident_id i l else l) ls) = [].
Proof.
  intros Hle. induction ls as [|l ls IH]; [reflexivity|].
  cbn [map List.filter].
  destruct (matches (uncorrelated_errors_since c1) l) eqn:H1.
  - replace (matches (uncorrelated_errors_since c2) (set_incident_id i l)) with false.
    + exact IH.
    + unfold matches, set_incident_id, uncorrelated_errors_since.
      cbn [log_incident_id where_incident_id].
      rewrite (bool_decide_eq_false_2 (Some i = None)) by discriminate.
      rewrite andb_false_r. reflexivity.
  - replace (matches (uncorrelated_errors_since c2) l) with false.
    + exact IH.
    + symmetry. apply not_true_is_false. intros H2. apply not_true_iff_false in H1.
      apply H1. unfold matches, uncorrelated_errors_since in *.
      cbn [where_level where_timestamp_gte where_incident_id] in *.
      apply andb_true_iff in H2 as [H2 Hnull]. apply andb_true_iff in H2 as [Hlvl Hts].
      rewrite Hlvl, Hnull. apply Z.leb_le in Hts.
      rewrite (proj2 (Z.leb_le c1 (log_timestamp l))) by lia. reflexivity.
Qed.

(** C2.  Idempotence: when a tick has declared an anomaly and applied the
    correlating update, a re-run over the unchanged data (its clock not
    behind the first one's) counts no uncorrelated ERROR record in its
    60-second window; runDetection leaves the database as it is, and the
    whole tick, run again, creates no second incident. *)
Theorem detection_idempotent (clk clk' : TickClock) (w w1 : World) (outs' : list bool) :
  run (runDetection clk) w = (Fulfilled tt, w1) ->
  incidents (db w1) <> incidents (db w) ->
  detect_now clk <= detect_now clk' ->
  let w2 := mkWorld (db w1) outs' (journal w1) in
  currentErrorCount clk' (db w1) = 0
  /\ db (run (runDetection clk') w2).2 = db w1
  /\ incidents (db (run (handleCron clk') w2).2) = incidents (db w1).
Proof.
  intros Hrun Hnew Hclk w2.
  apply run_runDetection_inv in Hrun.
  assert (Hdb : db w1 = correlated clk (db w)).
  { inversion Hrun; subst; cbn [db after] in *; try contradiction; reflexivity. }
  assert (Hzero : currentErrorCount clk' (db w1) = 0).
  { rewrite Hdb. unfold currentErrorCount, correlated. cbn [logs].
    rewrite correlated_window_empty; [reflexivity|]. unfold oneMinuteAgo. lia. }
  assert (Hquiet : anomaly (score clk' (db w2)) (currentErrorCount clk' (db w2)) = false).
  { apply noise_guard. cbn [w2 db]. rewrite Hzero. lia. }
  split; [exact Hzero|]. split.
  - apply (runDetection_quiet_frame clk' w2 Hquiet).
  - apply (quiet_tick_frame clk' w2 Hquiet).
Qed.

Lemma detection_idempotent_witness :
  let st1 := correlated Sample.tick Sample.spike in
  let w2 := mkWorld st1 [] [(OpBaseline, true); (OpLogCount, true);
                            (OpIncidentCreate, true); (OpLogUpdateMany, true)] in
  currentErrorCount Sample.tick st1 = 0
  /\ db (run (runDetection Sample.tick) w2).2 = st1
  /\ incidents (db (run (handleCron Sample.tick) w2).2) = incidents st1.
Proof.
  apply (detection_idempotent Sample.tick Sample.tick (mkWorld Sample.spike [] [])
           (mkWorld (correlated Sample.tick Sample.spike) []
              [(OpBaseline, true); (OpLogCount, true); (OpIncidentCreate, true);
               (OpLogUpdateMany, true)]) []).
  - vm_compute. reflexivity.
  - vm_compute. discriminate.
  - vm_compute. discriminate.
Defined.

(** ** The lease *)

Lemma run_journal_extends {A : Type} (p : Prog A) (w : World) :
  exists events, journal (run p w).2 = journal w ++ events.
Proof.
  revert w. induction p as [a|e|R c k IH]; intros w; cbn [run snd].
  - exists []. rewrite app_nil_r. reflexivity.
  - exists []. rewrite app_nil_r. reflexivity.
  - rewrite step_call_world.
    destruct (answered 0 w);
      match goal with
      | |- context [run (k ?r) ?w1] =>
          destruct (IH r w1) as [events Hev]; rewrite Hev; cbn [journal after];
          rewrite <- app_assoc; eexists; reflexivity
      end.
Qed.

(** The ways [acquire_and_run] ends: the creation of the lease fails and
    nothing else is done, or the lease is created and the last call of the
    tick is the delete that releases it. *)
Lemma acquire_and_run_release (clk : TickClock) (w : World) :
  let w' := (run (acquire_and_run clk) w).2 in
  (journal w' = journal w ++ [(OpLockCreate, false)] /\ db w' = db w
   /\ (answered 0 w = false \/ cronLocks (db w) !! lockId <> None))
  \/ (exists events ok,
        journal w' = journal w ++ (OpLockCreate, true) :: events ++ [(OpLockDelete, ok)]
        /\ cronLocks (db w) !! lockId = None
        /\ (ok = true -> cronLocks (db w') !! lockId = None)
        /\ (ok = false -> cronLocks (db w') !! lockId = Some (lease (cron_now clk)))).
Proof.
  cbn zeta. unfold acquire_and_run. exec_call.
  destruct (answered 0 w) eqn:A0; exec_done.
  2:{ left. repeat split. left. reflexivity. }
  change (id (lease (cron_now clk))) with lockId.
  destruct (cronLocks (db w) !! lockId) as [held|] eqn:Hrow; exec_done.
  { left. repeat split. right. discriminate. }
  right. cbn [bind try_catch].
  rewrite run_try_finally, run_catch_ignore_await.
  set (w2 := after w _ _).
  pose proof (runDetection_cronLocks clk w2) as Hframe.
  destruct (run_journal_extends (runDetection clk) w2) as [events Hev].
  set (w3 := (run (runDetection clk) w2).2) in *.
  rewrite step_call_world.
  assert (Hheld : cronLocks (db w3) !! lockId = Some (lease (cron_now clk))).
  { rewrite Hframe. subst w2. cbn [db after cronLocks]. apply lookup_insert_eq. }
  destruct (answered 0 w3) eqn:A3; cbn [snd perform fst is_fulfilled op_of].
  - rewrite Hheld. cbn [fst snd is_fulfilled journal after db cronLocks].
    exists events, true. rewrite Hev. subst w2. cbn [journal after].
    rewrite <- !app_assoc. cbn [app].
    repeat split; try discriminate. intros _. apply lookup_delete_eq.
  - exists events, false. cbn [journal after db]. rewrite Hev. subst w2. cbn [journal after].
    rewrite <- !app_assoc. cbn [app].
    repeat split; try discriminate. intros _. exact Hheld.
Qed.

(** The ways [handleCron] ends when a lease row exists. *)
Lemma handleCron_existing (clk : TickClock) (w : World) (row : CronLock) :
  cronLocks (db w) !! lockId = Some row ->
  run (handleCron clk) w =
    if answered 0 w then
      if cron_now clk <? expiry row then
        (Fulfilled tt, after w (db w) [(OpLockFind, true)])
      else
        run (acquire_and_run clk)
          (step_call (cronLock_delete lockId) (after w (db w) [(OpLockFind, true)])).2
    else (Rejected P1001, after w (db w) [(OpLockFind, false)]).
Proof.
  intros Hrow. unfold handleCron. exec_call.
  destruct (answered 0 w) eqn:A0; exec_done; [|reflexivity].
  rewrite Hrow. cbn [bind].
  destruct (cron_now clk <? expiry row); [reflexivity|].
  rewrite run_bind, run_catch_ignore_await. reflexivity.
Qed.

Lemma handleCron_absent (clk : TickClock) (w : World) :
  cronLocks (db w) !! lockId = None ->
  run (handleCron clk) w =
    if answered 0 w then
      run (acquire_and_run clk) (after w (db w) [(OpLockFind, true)])
    else (Rejected P1001, after w (db w) [(OpLockFind, false)]).
Proof.
  intros Hrow. unfold handleCron. exec_call.
  destruct (answered 0 w) eqn:A0; exec_done; [|reflexivity].
  rewrite Hrow. reflexivity.
Qed.

(** A tick running alone, no other instance calling in between: when the
    row it reads has expiry > now, handleCron only reads the row; it returns
    without running detection and leaves the database, the row included, as
    it was.  Such a tick goes on to create a lease only when expiry <= now,
    and then (the database answering) it does re-acquire. *)
Theorem lease_blocks_until_expiry
    (clk : TickClock) (st : Store) (outs : list bool) (row : CronLock) :
  cronLocks st !! lockId = Some row ->
  let w' := (run (handleCron clk) (mkWorld st outs [])).2 in
  (cron_now clk < expiry row ->
     db w' = st /\ exists ok, journal w' = [(OpLockFind, ok)])
  /\ (In OpLockCreate (map fst (journal w')) -> expiry row <= cron_now clk)
  /\ (expiry row <= cron_now clk -> outs = [] -> In (OpLockCreate, true) (journal w')).
Proof.
  intros Hrow w'. subst w'.
  rewrite (handleCron_existing clk (mkWorld st outs []) row Hrow).
  split; [|split].
  - intros Hlive. apply Z.ltb_lt in Hlive. rewrite Hlive.
    destruct (answered 0 _); cbn [snd db after journal app]; split; eauto.
  - intros Hcreate. destruct (Z.ltb_spec (cron_now clk) (expiry row)) as [Hlive|Hstale];
      [|exact Hstale].
    destruct (answered 0 _); cbn in Hcreate; intuition discriminate.
  - intros Hstale ->. apply Z.ltb_ge in Hstale. rewrite Hstale.
    cbn [answered outages nth negb].
    rewrite step_call_world. cbn [answered outages after drop length nth negb perform db snd].
    rewrite Hrow. cbn [fst snd is_fulfilled op_of].
    match goal with
    | |- In _ (journal (run _ ?w1).2) =>
        destruct (acquire_and_run_release clk w1)
          as [(_ & _ & [Hout|Hheld])|(events & ok & Hj & _)]
    end.
    + discriminate Hout.
    + exfalso. apply Hheld. cbn [db after cronLocks]. apply lookup_delete_eq.
    + rewrite Hj. apply in_or_app. right. left. reflexivity.
Qed.

Lemma lease_blocks_until_expiry_witness :
  let w' := (run (handleCron Sample.tick) (mkWorld Sample.spike_live_lease [] [])).2 in
  db w' = Sample.spike_live_lease /\ exists ok, journal w' = [(OpLockFind, ok)].
Proof.
  apply (lease_blocks_until_expiry Sample.tick Sample.spike_live_lease []
           (lease 1999000)).
  - reflexivity.
  - vm_compute. reflexivity.
Defined.

Lemma not_in_find_only (ok : bool) : ~ In (OpLockCreate, true) [(OpLockFind, ok)].
Proof. cbn. intuition discriminate. Qed.

(** *** The protected section *)

Lemma Protected_next (p : Prog unit) :
  Protected p ->
  exists op, next_call p = Some op /\ In op (OpLockDelete :: detection_ops).
Proof.
  intros [k Hk|R c k Hop Hk]; cbn [next_call op_of].
  - exists OpLockDelete. split; [reflexivity|left; reflexivity].
  - exists (op_of c). split; [reflexivity|right; exact Hop].
Qed.

(** The calls of [runDetection] leave the lease table alone. *)
Lemma detection_call_keeps_locks {R : Type} (c : Call R) (st : Store) :
  In (op_of c) detection_ops ->
  cronLocks (perform c st).2 = cronLocks st.
Proof.
  destruct c; cbn [op_of perform snd cronLocks detection_ops In]; intros Hop;
    try reflexivity; intuition discriminate.
Qed.

Ltac protected_step :=
  cbn [try_finally bind await try_catch catch_ignore IncidentsService.create];
  match goal with
  | |- Protected (try_finally (if ?b then _ else _) _) => destruct b
  | |- Protected (Await (cronLock_delete lockId) _) =>
      apply protected_release; intros [?|?]; reflexivity
  | |- Protected (Await _ _) =>
      apply protected_call;
      [cbn [op_of detection_ops In]; tauto|intros [?|?]]
  end.

(** Once the lease is created, [handleCron] is inside the protected section:
    the [finally] block ends every path through [runDetection] with the
    delete of the lease. *)
Lemma runDetection_protected (clk : TickClock) :
  Protected (try_finally (runDetection clk) (catch_ignore (await (cronLock_delete lockId)))).
Proof.
  unfold runDetection. cbn zeta. repeat protected_step.
Qed.

Lemma acquire_and_run_releases (clk : TickClock) :
  ReleasesAfterCreate (acquire_and_run clk).
Proof.
  unfold acquire_and_run. cbn [bind await try_catch].
  apply releases_create; intros; cbn [bind try_catch].
  - apply runDetection_protected.
  - apply releases_settled. reflexivity.
Qed.

Lemma handleCron_releases (clk : TickClock) : ReleasesAfterCreate (handleCron clk).
Proof.
  unfold handleCron. cbn zeta. cbn [bind await].
  apply releases_other; [discriminate|].
  intros [[existing|]|e]; cbn [bind].
  - destruct (cron_now clk <? expiry existing).
    + apply releases_settled. reflexivity.
    + cbn [catch_ignore await bind try_catch].
      apply releases_other; [discriminate|].
      intros [row|e]; cbn [bind try_catch]; apply acquire_and_run_releases.
  - apply acquire_and_run_releases.
  - apply releases_settled. reflexivity.
Qed.

(** One turn of an instance inside the protected section, whatever the other
    instances have done to the database: it stays inside, or the call was
    the release, the instance has settled and no lease row is left. *)
Lemma protected_turn (c : Cluster) (i : nat) (p : Prog unit) :
  pool c !! i = Some p ->
  Protected p ->
  exists p', pool (turn i c) !! i = Some p'
    /\ ((Protected p' /\ cronLocks (shared (turn i c)) = cronLocks (shared c))
        \/ (next_call p' = None
            /\ (exists ok, history (turn i c) = history c ++ [(i, OpLockDelete, ok)])
            /\ cronLocks (shared (turn i c)) !! lockId = None)).
Proof.
  intros Hp Hprot. pose proof (lookup_lt_Some _ _ _ Hp) as Hlt.
  unfold turn. rewrite Hp.
  destruct Hprot as [k Hk|R call k Hop Hk].
  - cbn [perform].
    destruct (cronLocks (shared c) !! lockId) as [row|] eqn:Hrow;
      cbn [pool shared history cronLocks is_fulfilled op_of];
      eexists; (split; [apply list_lookup_insert_eq; exact Hlt|]);
      right; (split; [apply Hk|]); (split; [eexists; reflexivity|]).
    + apply lookup_delete_eq.
    + exact Hrow.
  - pose proof (detection_call_keeps_locks call (shared c) Hop) as Hkeep.
    destruct (perform call (shared c)) as [r st'].
    cbn [pool shared history snd] in *.
    eexists. split; [apply list_lookup_insert_eq; exact Hlt|].
    left. split; [apply Hk|exact Hkeep].
Qed.

(** The turns of the other instances leave the program of an instance as it
    is. *)
Lemma other_turn (c : Cluster) (i j : nat) :
  i <> j -> pool (turn j c) !! i = pool c !! i.
Proof.
  intros Hne. unfold turn.
  destruct (pool c !! j) as [[a|e|R call k]|]; try reflexivity.
  destruct (perform call (shared c)) as [r st']. cbn [pool].
  apply list_lookup_insert_ne. congruence.
Qed.


(** A tick running alone: when the lease has been created, the last call of
    the tick is the delete that releases it; the row is gone at the end of
    the tick when that delete is fulfilled, and still there when the
    database could not be reached for it. *)
Lemma handleCron_release_alone (clk : TickClock) (st : Store) (outs : list bool) :
  let w' := (run (handleCron clk) (mkWorld st outs [])).2 in
  In (OpLockCreate, true) (journal w') ->
  exists events ok,
    journal w' = events ++ [(OpLockDelete, ok)]
    /\ In (OpLockCreate, true) events
    /\ (ok = true -> cronLocks (db w') !! lockId = None)
    /\ (ok = false -> cronLocks (db w') !! lockId = Some (lease (cron_now clk))).
Proof.
  cbn zeta. set (w := mkWorld st outs []).
  assert (Hacq : forall w1 : World,
    In (OpLockCreate, true) (journal (run (acquire_and_run clk) w1).2) ->
    ~ In (OpLockCreate, true) (journal w1) ->
    exists events ok,
      journal (run (acquire_and_run clk) w1).2 = events ++ [(OpLockDelete, ok)]
      /\ In (OpLockCreate, true) events
      /\ (ok = true -> cronLocks (db (run (acquire_and_run clk) w1).2) !! lockId = None)
      /\ (ok = false -> cronLocks (db (run (acquire_and_run clk) w1).2) !! lockId
                        = Some (lease (cron_now clk)))).
  { intros w1 Hin Hfresh.
    destruct (acquire_and_run_release clk w1)
      as [(Hj & _ & _)|(events & ok & Hj & _ & Hgone & Hstays)].
    - rewrite Hj in Hin. apply in_app_or in Hin as [Hin|[Hin|[]]];
        [contradiction|discriminate].
    - exists (journal w1 ++ (OpLockCreate, true) :: events), ok.
      rewrite Hj, <- app_assoc. repeat split; auto.
      apply in_or_app. right. left. reflexivity. }
  destruct (cronLocks (db w) !! lockId) as [row|] eqn:Hrow.
  - rewrite (handleCron_existing clk w row Hrow).
    destruct (answered 0 w).
    2:{ intros Hin. apply not_in_find_only in Hin. contradiction. }
    destruct (cron_now clk <? expiry row).
    { intros Hin. apply not_in_find_only in Hin. contradiction. }
    intros Hin. apply Hacq; [exact Hin|].
    rewrite step_call_world.
    destruct (answered 0 _); cbn; intuition discriminate.
  - rewrite (handleCron_absent clk w Hrow).
    destruct (answered 0 w).
    2:{ intros Hin. apply not_in_find_only in Hin. contradiction. }
    intros Hin. apply Hacq; [exact Hin|]. apply not_in_find_only.
Qed.

(** C6 (as amended).  Whenever handleCron has created the lease row, the
    delete that releases it is issued before the tick ends, as its last
    call, on every exit path of runDetection, normal or throwing; the row
    is deleted when that delete is fulfilled.  Three readings of the same
    fact: (1) on every path through handleCron, whatever the database
    answers, a fulfilled creation is followed by calls of runDetection
    only, then the delete, then the method settles; (2) among other
    instances, each turn of an instance inside the protected section keeps
    it inside or is the release, after which it has settled and no lease
    row is left; (3) in a tick running alone against a database with
    outages, the journal of a tick that created the lease ends with the
    delete, and a fulfilled delete leaves no lease row. *)
Theorem lease_release_attempted (clk : TickClock) :
  ReleasesAfterCreate (handleCron clk)
  /\ (forall (c : Cluster) (i : nat) (p : Prog unit),
        pool c !! i = Some p ->
        Protected p ->
        exists p', pool (turn i c) !! i = Some p'
          /\ (Protected p'
              \/ (next_call p' = None
                  /\ (exists ok, history (turn i c) = history c ++ [(i, OpLockDelete, ok)])
                  /\ cronLocks (shared (turn i c)) !! lockId = None)))
  /\ (forall (st : Store) (outs : list bool),
        let w' := (run (handleCron clk) (mkWorld st outs [])).2 in
        In (OpLockCreate, true) (journal w') ->
        exists events ok,
          journal w' = events ++ [(OpLockDelete, ok)]
          /\ In (OpLockCreate, true) events
          /\ (ok = true -> cronLocks (db w') !! lockId = None)).
Proof.
  split; [apply handleCron_releases|]. split.
  - intros c i p Hp Hprot.
    destruct (protected_turn c i p Hp Hprot) as (p' & Hp' & [[Hin _]|Hout]);
      exists p'; (split; [exact Hp'|]); [left; exact Hin|right; exact Hout].
  - intros st outs w' Hin.
    destruct (handleCron_release_alone clk st outs Hin)
      as (events & ok & Hj & Hev & Hgone & _).
    exists events, ok. repeat split; assumption.
Qed.

(** The lease is created, the baseline query is rejected, the release goes
    through: the row is gone although [runDetection] threw. *)
Lemma lease_release_attempted_witness :
  exists events ok,
    journal (run (handleCron Sample.tick)
               (mkWorld Sample.spike [false; false; true] [])).2
      = events ++ [(OpLockDelete, ok)]
    /\ In (OpLockCreate, true) events
    /\ (ok = true ->
        cronLocks (db (run (handleCron Sample.tick)
                         (mkWorld Sample.spike [false; false; true] [])).2) !! lockId
          = None).
Proof.
  destruct (lease_release_attempted Sample.tick) as (_ & _ & Halone).
  apply (Halone Sample.spike [false; false; true]).
  vm_compute. right. left. reflexivity.
Defined.


(** C6 (as stated) fails: the lease is created, the database becomes
    unreachable, [runDetection] throws, and the delete of the [finally] block
    is rejected as well; the rejection is swallowed and the lease row is
    still there when the tick ends. *)
Lemma lease_release_not_guaranteed :
  let w' := (run (handleCron Sample.tick)
               (mkWorld Sample.spike [false; false; true; true] [])).2 in
  In (OpLockCreate, true) (journal w')
  /\ journal w' = [(OpLockFind, true); (OpLockCreate, true); (OpBaseline, false);
                   (OpLockDelete, false)]
  /\ cronLocks (db w') !! lockId = Some (lease 2000000).
Proof.
  vm_compute. repeat split. right. left. reflexivity.
Qed.

(** ** Two instances *)

Lemma turn_cluster (i : nat) (ps : list (Prog unit)) (st : Store)
    (h : list (nat * Op * bool)) :
  turn i (mkCluster ps st h) =
    match ps !! i with
    | Some (Await call k) =>
        let (r, st') := perform call st in
        mkCluster (<[i := k r]> ps) st' (h ++ [(i, op_of call, is_fulfilled r)])
    | _ => mkCluster ps st h
    end.
Proof. reflexivity. Qed.

(** One turn of a cluster of [handleCron] instances, symbolically. *)
Ltac cluster_turn :=
  rewrite turn_cluster;
  cbn [lookup list_lookup handleCron acquire_and_run bind await try_catch
       catch_ignore perform cronLocks];
  repeat match goal with
         | |- context [id (lease ?t)] => change (id (lease t)) with lockId
         | |- context [expiry (lease ?t)] => change (expiry (lease t)) with (t + 9000)
         end;
  rewrite ?lookup_delete_eq, ?lookup_insert_eq;
  repeat match goal with
         | H : _ !! lockId = _ |- _ => rewrite H
         end;
  cbn [bind try_catch insert list_insert app is_fulfilled op_of];
  repeat match goal with
         | H : (_ <? _) = _ |- _ => rewrite H
         end.

(** With no lease row at all, and two instances whose ticks start within the
    lease duration of each other: however their first two calls, the read
    and the creation, interleave, exactly one of the two creations is
    fulfilled. *)
Lemma fresh_lease_race_one_winner
    (clkA clkB : TickClock) (st : Store) (schedule : list nat) :
  cronLocks st !! lockId = None ->
  cron_now clkA < cron_now clkB + 9000 ->
  cron_now clkB < cron_now clkA + 9000 ->
  In schedule acquisition_schedules ->
  leases_created
    (history (interleave schedule
                (mkCluster [handleCron clkA; handleCron clkB] st []))) = 1%nat.
Proof.
  intros Hrow HA HB Hin. apply Z.ltb_lt in HA, HB.
  unfold acquisition_schedules in Hin. cbn [In] in Hin.
  repeat destruct Hin as [<-|Hin]; try contradiction;
    cbn [interleave fold_left]; do 4 cluster_turn; reflexivity.
Qed.

(** C4 fails on the code when the row found is stale: both instances read
    the expired lease; the first deletes it and creates its own; the second
    then deletes the first one's fresh lease and creates its own in turn.
    Both creations are fulfilled, neither instance has released, and both
    are about to run the baseline query of runDetection. *)
Theorem stale_lease_reclaim_race (clkA clkB : TickClock) (st : Store) (row : CronLock) :
  cronLocks st !! lockId = Some row ->
  expiry row <= cron_now clkA ->
  expiry row <= cron_now clkB ->
  let c := interleave [0; 1; 0; 0; 1; 1]%nat
             (mkCluster [handleCron clkA; handleCron clkB] st []) in
  history c = [(0, OpLockFind, true); (1, OpLockFind, true);
               (0, OpLockDelete, true); (0, OpLockCreate, true);
               (1, OpLockDelete, true); (1, OpLockCreate, true)]%nat
  /\ leases_created (history c) = 2%nat
  /\ map next_call (pool c) = [Some OpBaseline; Some OpBaseline]
  /\ cronLocks (shared c) !! lockId = Some (lease (cron_now clkB)).
Proof.
  intros Hrow HA HB. apply Z.ltb_ge in HA, HB.
  cbn zeta. cbn [interleave fold_left].
  do 6 cluster_turn.
  cbn [history pool shared cronLocks map next_call try_finally runDetection bind await
       op_of].
  repeat split. apply lookup_insert_eq.
Qed.

Lemma stale_lease_reclaim_race_witness :
  let c := interleave [0; 1; 0; 0; 1; 1]%nat
             (mkCluster [handleCron Sample.tick; handleCron Sample.tick]
                        Sample.spike_stale_lease []) in
  history c = [(0, OpLockFind, true); (1, OpLockFind, true);
               (0, OpLockDelete, true); (0, OpLockCreate, true);
               (1, OpLockDelete, true); (1, OpLockCreate, true)]%nat
  /\ leases_created (history c) = 2%nat
  /\ map next_call (pool c) = [Some OpBaseline; Some OpBaseline]
  /\ cronLocks (shared c) !! lockId = Some (lease 2000000).
Proof.
  apply (stale_lease_reclaim_race Sample.tick Sample.tick Sample.spike_stale_lease
           (mkCronLock lockId 1000 10000)).
  - reflexivity.
  - vm_compute. discriminate.
  - vm_compute. discriminate.
Defined.

(** Run to the end, the race files the same burst twice. *)
Example stale_lease_race_two_incidents :
  let c := interleave [0; 1; 0; 0; 1; 1; 0; 1; 0; 1; 0; 1; 0; 1; 0; 1]%nat
             (mkCluster [handleCron Sample.tick; handleCron Sample.tick]
                        Sample.spike_stale_lease []) in
  map next_call (pool c) = [None; None]
  /\ map incident_title (incidents (shared c)) =
       ["Anomaly Detected: Error Spike (Z-Score: 3.46, Count: 20)";
        "Anomaly Detected: Error Spike (Z-Score: 3.46, Count: 20)"].
Proof. vm_compute. split; reflexivity. Qed.

(** C5 fails on the code, by the defect of C4.  Two instances read the same
    expired row.  The first deletes it and creates its own lease, which has
    not expired at the second one's clock and has not been released: its
    holder is inside the protected section.  The second instance, on the
    strength of the row it read earlier, then deletes that live lease and
    creates its own in its place, before the expiry of the lease it
    replaces; both instances are now inside the protected section. *)
Theorem live_lease_replaced_before_expiry
    (clkA clkB : TickClock) (st : Store) (row : CronLock) :
  cronLocks st !! lockId = Some row ->
  expiry row <= cron_now clkA ->
  expiry row <= cron_now clkB ->
  cron_now clkB < cron_now clkA + 9000 ->
  let c := interleave [0; 1; 0; 0]%nat
             (mkCluster [handleCron clkA; handleCron clkB] st []) in
  let c' := interleave [1; 1]%nat c in
  (exists held,
     cronLocks (shared c) !! lockId = Some held
     /\ held = lease (cron_now clkA)
     /\ cron_now clkB < expiry held)
  /\ (exists pA pB,
        pool c = [pA; pB] /\ Protected pA /\ next_call pB = Some OpLockDelete)
  /\ history c' = history c ++ [(1, OpLockDelete, true); (1, OpLockCreate, true)]%nat
  /\ cronLocks (shared c') !! lockId = Some (lease (cron_now clkB))
  /\ (exists pA pB, pool c' = [pA; pB] /\ Protected pA /\ Protected pB).
Proof.
  intros Hrow HA HB Hlive. apply Z.ltb_ge in HA, HB.
  cbn zeta. cbn [interleave fold_left].
  do 6 cluster_turn.
  cbn [history pool shared cronLocks app].
  split; [|split; [|split; [|split]]].
  - eexists. split; [apply lookup_insert_eq|]. split; [reflexivity|exact Hlive].
  - do 2 eexists. split; [reflexivity|]. split; [apply runDetection_protected|reflexivity].
  - reflexivity.
  - apply lookup_insert_eq.
  - do 2 eexists. split; [reflexivity|]. split; apply runDetection_protected.
Qed.

Lemma live_lease_replaced_before_expiry_witness :
  let c := interleave [0; 1; 0; 0]%nat
             (mkCluster [handleCron Sample.tick;
                         handleCron (mkTickClock 2000500 2000500 2000500)]
                        Sample.spike_stale_lease []) in
  let c' := interleave [1; 1]%nat c in
  (exists held,
     cronLocks (shared c) !! lockId = Some held
     /\ held = lease 2000000
     /\ 2000500 < expiry held)
  /\ (exists pA pB,
        pool c = [pA; pB] /\ Protected pA /\ next_call pB = Some OpLockDelete)
  /\ history c' = history c ++ [(1, OpLockDelete, true); (1, OpLockCreate, true)]%nat
  /\ cronLocks (shared c') !! lockId = Some (lease 2000500)
  /\ (exists pA pB, pool c' = [pA; pB] /\ Protected pA /\ Protected pB).
Proof.
  apply (live_lease_replaced_before_expiry Sample.tick
           (mkTickClock 2000500 2000500 2000500) Sample.spike_stale_lease
           (mkCronLock lockId 1000 10000)).
  - reflexivity.
  - vm_compute. discriminate.
  - vm_compute. discriminate.
  - vm_compute. reflexivity.
Defined.


(** ** Ingestion *)

(** C3 fails on the code: processLog makes one create call on the database
    for each record and awaits it.  When it returns the record is already a
    row of the Log table; when the database cannot be reached the rejection
    is rethrown to the caller. *)
Theorem processLog_write_through (logDto : CreateLogDto) (w : World) :
  run (processLog logDto) w =
    if answered 0 w then
      let row := mkLog (next_id (db w)) (service_id logDto) (level logDto)
                       (message logDto) (timestamp logDto)
                       (default [] (metadata logDto)) None in
      (Fulfilled row,
       after w (mkStore (logs (db w) ++ [row]) (incidents (db w)) (cronLocks (db w))
                        (S (next_id (db w))))
             [(OpLogCreate, true)])
    else (Rejected P1001, after w (db w) [(OpLogCreate, false)]).
Proof.
  unfold processLog. exec_call.
  destruct (answered 0 w); exec_done; reflexivity.
Qed.

(** A well-formed record submitted while the database is unreachable. *)
Example processLog_rejects :
  run (processLog Sample.record) (mkWorld Sample.calm [true] []) =
    (Rejected P1001, mkWorld Sample.calm [] [(OpLogCreate, false)]).
Proof. reflexivity. Qed.

(** ** Scoring *)

(** C7.  Cold-start sentinel: when the standard deviation of the baseline is
    0, the Z-score is 999 if the current count exceeds the mean and 0
    otherwise.  For baseline buckets [0,0,0,0,0] and a current count of 6
    the standard deviation is 0, Z is 999, the anomaly is declared, and
    runDetection asks for a CRITICAL incident. *)
Theorem cold_start_sentinel :
  (forall (values : list float) (current : Z),
     PrimFloat.eqb (stdDev values) 0 = true ->
     zScore values current =
       if PrimFloat.ltb (mean values) (ES.Number current) then 999%float else 0%float)
  /\ (let values := map (fun m => ES.Number (loading m)) Sample.silent_buckets in
      stdDev values = 0%float
      /\ zScore values 6 = 999%float
      /\ anomaly (zScore values 6) 6 = true)
  /\ (forall clk : TickClock,
        requested_incident
          (resolve_count 6 (resolve_baseline Sample.silent_buckets (runDetection clk)))
        = Some (mkCreateIncidentDto
                  "Anomaly Detected: Error Spike (Z-Score: 999.00, Count: 6)"
                  CRITICAL OPEN)).
Proof.
  split; [|split].
  - intros values current Hzero. unfold zScore. rewrite Hzero. reflexivity.
  - vm_compute. repeat split.
  - intros clk. vm_compute. reflexivity.
Qed.

Lemma cold_start_sentinel_witness :
  zScore (map ES.Number [7; 7; 7; 7; 7]) 3 = 0%float.
Proof.
  rewrite (proj1 cold_start_sentinel (map ES.Number [7; 7; 7; 7; 7]) 3).
  - vm_compute. reflexivity.
  - vm_compute. reflexivity.
Defined.

(** C8 (as amended).  For baseline buckets [2,3,2,4,3] the mean is 14/5,
    printed 2.8, and the population standard deviation is the square root
    of the sum of squared deviations over 5, printed 0.748; with a current
    count of 10 the Z-score prints as 9.62, it exceeds 5, and runDetection
    asks for a CRITICAL incident. *)
Theorem steady_baseline_instance :
  let values := map (fun m => ES.Number (loading m)) Sample.steady_buckets in
  let Z := zScore values 10 in
  mean values = PrimFloat.div 14 5
  /\ ES.toFixed 1 (mean values) = "2.8"
  /\ ES.toFixed 2 (variance values) = "0.56"
  /\ ES.toFixed 3 (stdDev values) = "0.748"
  /\ ES.toFixed 2 Z = "9.62"
  /\ PrimFloat.ltb 5 Z = true
  /\ anomaly Z 10 = true
  /\ (forall clk : TickClock,
        requested_incident
          (resolve_count 10 (resolve_baseline Sample.steady_buckets (runDetection clk)))
        = Some (mkCreateIncidentDto
                  "Anomaly Detected: Error Spike (Z-Score: 9.62, Count: 10)"
                  CRITICAL OPEN)).
Proof.
  cbn zeta. repeat split; try (vm_compute; reflexivity).
Qed.

(** C8 (as stated) fails in the last digit: the Z-score of the instance lies
    below 9.625, so it is 9.62 to two decimals and not 9.63. *)
Lemma steady_baseline_z_is_not_9_63 :
  let Z := zScore (map (fun m => ES.Number (loading m)) Sample.steady_buckets) 10 in
  PrimFloat.ltb Z 9.625 = true /\ ES.toFixed 2 Z <> "9.63".
Proof.
  vm_compute. split; [reflexivity|discriminate].
Qed.

(** Z = 18 (mean 0.1, standard deviation 0.05, one error): no anomaly. *)
Example noise_guard_near_silent :
  PrimFloat.ltb 3 18 = true /\ anomaly 18 1 = false.
Proof. split; reflexivity. Qed.

(** Buckets [3,2,1,1,1,1,1] and 5 current errors: Z is about 4.9, the count
    is not above 5, and no incident is requested. *)
Example high_score_low_count (clk : TickClock) :
  let rows := [Sample.bucket 7 3; Sample.bucket 6 2; Sample.bucket 5 1;
               Sample.bucket 4 1; Sample.bucket 3 1; Sample.bucket 2 1;
               Sample.bucket 1 1] in
  PrimFloat.ltb 3 (zScore (map (fun m => ES.Number (loading m)) rows) 5) = true
  /\ next_call (resolve_count 5 (resolve_baseline rows (runDetection clk))) = None.
Proof. vm_compute. split; reflexivity. Qed.

(** Buckets [10,10,10,10,11] and 10 current errors: the count is above 5, Z
    is negative, and no incident is requested. *)
Example high_count_low_score (clk : TickClock) :
  let rows := [Sample.bucket 5 10; Sample.bucket 4 10; Sample.bucket 3 10;
               Sample.bucket 2 10; Sample.bucket 1 11] in
  PrimFloat.ltb 3 (zScore (map (fun m => ES.Number (loading m)) rows) 10) = false
  /\ next_call (resolve_count 10 (resolve_baseline rows (runDetection clk))) = None.
Proof. vm_compute. split; reflexivity. Qed.

(** * Further properties *)

(** ** What a detection pass writes *)

Lemma lookup_map_Some {A B : Type} (f : A -> B) (ls : list A) (n : nat) (a : A) :
  ls !! n = Some a -> map f ls !! n = Some (f a).
Proof.
  revert n. induction ls as [|x rest IH]; intros [|n] H; try discriminate.
  - injection H as ->. reflexivity.
  - cbn in *. apply IH. exact H.
Qed.

(** A fulfilled pass that raised an alert has tagged exactly the
    uncorrelated ERROR records of its window with the id of the new
    incident; every other record, in particular one already correlated to an
    incident, is as it was, in the same place. *)
Theorem correlation_exact (clk : TickClock) (w w1 : World) :
  run (runDetection clk) w = (Fulfilled tt, w1) ->
  incidents (db w1) <> incidents (db w) ->
  incidents (db w1) = incidents (db w) ++ [alert clk (db w)]
  /\ incident_id (alert clk (db w)) = next_id (db w)
  /\ length (logs (db w1)) = length (logs (db w))
  /\ forall (n : nat) (l : Log),
       logs (db w) !! n = Some l ->
       logs (db w1) !! n =
         Some (if matches (uncorrelated_errors_since (oneMinuteAgo clk)) l
               then set_incident_id (next_id (db w)) l else l)
       /\ (log_incident_id l <> None -> logs (db w1) !! n = Some l).
Proof.
  intros Hrun Hnew. apply run_runDetection_inv in Hrun.
  assert (Hdb : db w1 = correlated clk (db w)).
  { inversion Hrun; subst; cbn [db after] in *; try contradiction; reflexivity. }
  rewrite Hdb. unfold correlated. cbn [logs incidents].
  split; [reflexivity|]. split; [reflexivity|]. split; [apply length_map|].
  intros n l Hl.
  assert (Hn : map (fun l0 => if matches (uncorrelated_errors_since (oneMinuteAgo clk)) l0
                              then set_incident_id (next_id (db w)) l0 else l0)
                   (logs (db w)) !! n
               = Some (if matches (uncorrelated_errors_since (oneMinuteAgo clk)) l
                       then set_incident_id (next_id (db w)) l else l)).
  { apply (lookup_map_Some
             (fun l0 => if matches (uncorrelated_errors_since (oneMinuteAgo clk)) l0
                        then set_incident_id (next_id (db w)) l0 else l0)).
    exact Hl. }
  split; [exact Hn|].
  intros Hcorr. rewrite Hn. f_equal.
  replace (matches (uncorrelated_errors_since (oneMinuteAgo clk)) l) with false;
    [reflexivity|].
  symmetry. unfold matches, uncorrelated_errors_since. cbn [where_incident_id].
  rewrite (bool_decide_eq_false_2 _ Hcorr). apply andb_false_r.
Qed.

Lemma correlation_exact_witness :
  incidents (correlated Sample.tick Sample.spike) = [] ++ [alert Sample.tick Sample.spike]
  /\ incident_id (alert Sample.tick Sample.spike) = 200%nat.
Proof.
  pose proof (correlation_exact Sample.tick (mkWorld Sample.spike [] [])
                (mkWorld (correlated Sample.tick Sample.spike) []
                   [(OpBaseline, true); (OpLogCount, true); (OpIncidentCreate, true);
                    (OpLogUpdateMany, true)])) as H.
  destruct H as (Hinc & Hid & _).
  - vm_compute. reflexivity.
  - vm_compute. discriminate.
  - split; [exact Hinc|exact Hid].
Defined.

(** A pass that throws has modified no record and no lease.  It has thrown
    the error of the database; it has added an incident, without
    correlating any record to it, exactly when the call that was rejected is
    the correlating update. *)
Theorem failed_pass_effects (clk : TickClock) (w w1 : World) (e : PrismaError) :
  run (runDetection clk) w = (Rejected e, w1) ->
  e = P1001
  /\ logs (db w1) = logs (db w)
  /\ cronLocks (db w1) = cronLocks (db w)
  /\ ((incidents (db w1) = incidents (db w)
       /\ ~ In (OpLogUpdateMany, false) (drop (length (journal w)) (journal w1)))
      \/ (incidents (db w1) = incidents (db w) ++ [alert clk (db w)]
          /\ In (OpLogUpdateMany, false) (drop (length (journal w)) (journal w1)))).
Proof.
  intros Hrun. apply run_runDetection_inv in Hrun.
  inversion Hrun; subst; cbn [db after journal logs incidents cronLocks with_incident];
    rewrite drop_app_length; (split; [reflexivity|]); (split; [reflexivity|]);
    (split; [reflexivity|]).
  1-3: left; split; [reflexivity|cbn; intuition discriminate].
  right. split; [reflexivity|]. cbn. auto 10.
Qed.

Lemma failed_pass_effects_witness :
  let w1 := (run (runDetection Sample.tick)
               (mkWorld Sample.spike [false; false; false; true] [])).2 in
  logs (db w1) = logs Sample.spike
  /\ incidents (db w1) = [] ++ [alert Sample.tick Sample.spike].
Proof.
  cbn zeta.
  destruct (failed_pass_effects Sample.tick
              (mkWorld Sample.spike [false; false; false; true] [])
              (run (runDetection Sample.tick)
                 (mkWorld Sample.spike [false; false; false; true] [])).2 P1001)
    as (_ & Hlogs & _ & [[_ Hno]|[Hinc _]]).
  - vm_compute. reflexivity.
  - exfalso. apply Hno. vm_compute. auto 10.
  - split; [exact Hlogs|exact Hinc].
Defined.

(** When the correlating update of an alert is rejected, the records stay
    uncorrelated, and the next pass over them, the database answering,
    raises the same alert again: two incidents with the same title and
    severity for one burst. *)
Theorem uncorrelated_alert_retriggers (clk : TickClock) (w : World) (jr : list (Op * bool)) :
  answered 0 w = true -> answered 1 w = true -> answered 2 w = true ->
  answered 3 w = false ->
  (MIN_BASELINE_BUCKETS <= length (baselineMetrics clk (db w)))%nat ->
  anomaly (score clk (db w)) (currentErrorCount clk (db w)) = true ->
  let st1 := db (run (runDetection clk) w).2 in
  let st2 := db (run (runDetection clk) (mkWorld st1 [] jr)).2 in
  exists first second,
    incidents st2 = incidents (db w) ++ [first; second]
    /\ incident_title second = incident_title first
    /\ incident_severity second = incident_severity first
    /\ incident_id second = S (incident_id first).
Proof.
  intros A0 A1 A2 A3 Hlen Han. cbn zeta.
  assert (H1 : db (run (runDetection clk) w).2 = with_incident clk (db w)).
  { destruct (run (runDetection clk) w) as [r w1] eqn:Hrun.
    apply run_runDetection_inv in Hrun.
    inversion Hrun; subst; cbn [snd db after]; try reflexivity; try congruence; lia. }
  rewrite H1. set (st1 := with_incident clk (db w)).
  destruct (observations_of_logs clk st1 (db w)) as (Hb & Hc & Hs); [reflexivity|].
  assert (H2 : db (run (runDetection clk) (mkWorld st1 [] jr)).2 = correlated clk st1).
  { destruct (run (runDetection clk) (mkWorld st1 [] jr)) as [r w2] eqn:Hrun.
    apply run_runDetection_inv in Hrun.
    inversion Hrun; subst r w2; cbn [snd db after answered outages nth negb] in *;
      try reflexivity; try discriminate.
    - rewrite Hb in *. lia.
    - rewrite Hs, Hc in *. congruence. }
  exists (alert clk (db w)), (alert clk st1).
  rewrite H2. unfold correlated. cbn [incidents].
  split.
  - unfold st1 at 1. cbn [incidents with_incident]. rewrite <- app_assoc. reflexivity.
  - unfold alert. cbn [incident_title incident_severity incident_id].
    rewrite Hs, Hc. repeat split.
Qed.

Lemma uncorrelated_alert_retriggers_witness :
  exists first second,
    incidents (db (run (runDetection Sample.tick)
                     (mkWorld (db (run (runDetection Sample.tick)
                                     (mkWorld Sample.spike [false; false; false; true] [])).2)
                              [] [])).2)
      = [] ++ [first; second]
    /\ incident_title second = incident_title first
    /\ incident_severity second = incident_severity first
    /\ incident_id second = S (incident_id first).
Proof.
  apply (uncorrelated_alert_retriggers Sample.tick
           (mkWorld Sample.spike [false; false; false; true] []) []).
  - reflexivity.
  - reflexivity.
  - reflexivity.
  - reflexivity.
  - vm_compute. lia.
  - vm_compute. reflexivity.
Defined.

(** ** The whole tick *)

Lemma step_call_journal {R : Type} (c : Call R) (w : World) :
  journal (step_call c w).2 = journal w ++ [(op_of c, is_fulfilled (step_call c w).1)].
Proof.
  rewrite step_call_world. destruct (answered 0 w); reflexivity.
Qed.

Lemma step_call_no_outage {R : Type} (c : Call R) (w : World) :
  outages w = [] ->
  step_call c w = ((perform c (db w)).1,
                   mkWorld (perform c (db w)).2 []
                           (journal w ++ [(op_of c, is_fulfilled (perform c (db w)).1)])).
Proof.
  intros Hout. unfold step_call. rewrite Hout. cbn [tail].
  destruct (perform c (db w)); reflexivity.
Qed.

Lemma run_no_outage {A : Type} (p : Prog A) (w : World) :
  outages w = [] -> outages (run p w).2 = [].
Proof.
  revert w. induction p as [a|e|R c k IH]; intros w Hout; cbn [run snd]; try exact Hout.
  rewrite (step_call_no_outage c w Hout). apply IH. reflexivity.
Qed.

(** The calls on the lease table leave the records, the incidents and the
    id counter alone. *)
Lemma lease_call_keeps {R : Type} (c : Call R) (w : World) :
  In (op_of c) [OpLockFind; OpLockDelete; OpLockCreate] ->
  logs (db (step_call c w).2) = logs (db w)
  /\ incidents (db (step_call c w).2) = incidents (db w)
  /\ next_id (db (step_call c w).2) = next_id (db w).
Proof.
  intros Hop. rewrite step_call_world.
  destruct (answered 0 w); [|repeat split].
  destruct c; cbn [perform snd db after];
    try (cbn in Hop; intuition discriminate);
    try match goal with
        | |- context [cronLocks ?st !! ?k] => destruct (cronLocks st !! k)
        end; repeat split.
Qed.

Lemma acquire_and_run_eq (clk : TickClock) (w : World) :
  run (acquire_and_run clk) w =
    let c := step_call (cronLock_create (lease (cron_now clk))) w in
    if is_fulfilled c.1 then
      let d := run (runDetection clk) c.2 in
      (d.1, (step_call (cronLock_delete lockId) d.2).2)
    else (Fulfilled tt, c.2).
Proof.
  unfold acquire_and_run. rewrite run_bind. cbn [run bind await try_catch].
  destruct (step_call (cronLock_create (lease (cron_now clk))) w) as [[row|e] w2];
    cbn [run bind try_catch fst snd is_fulfilled]; [|reflexivity].
  rewrite run_try_finally, run_catch_ignore_await. reflexivity.
Qed.

Lemma handleCron_eq (clk : TickClock) (w : World) :
  run (handleCron clk) w =
    let f := step_call (cronLock_findUnique lockId) w in
    match f.1 with
    | Rejected e => (Rejected e, f.2)
    | Fulfilled None => run (acquire_and_run clk) f.2
    | Fulfilled (Some existing) =>
        if cron_now clk <? expiry existing then (Fulfilled tt, f.2)
        else run (acquire_and_run clk) (step_call (cronLock_delete lockId) f.2).2
    end.
Proof.
  unfold handleCron. cbn [run bind await].
  destruct (step_call (cronLock_findUnique lockId) w) as [[[existing|]|e] w0];
    cbn [run bind fst snd]; try reflexivity.
  destruct (cron_now clk <? expiry existing); [reflexivity|].
  rewrite run_bind, run_catch_ignore_await. reflexivity.
Qed.

(** The calls of a pass are calls of [runDetection]; the pass throws exactly
    when one of them is rejected. *)
Lemma TickResult_calls (clk : TickClock) (w : World) (r : Outcome unit) (w' : World) :
  TickResult clk w r w' ->
  exists events,
    journal w' = journal w ++ events
    /\ is_fulfilled r = negb (existsb fatal_rejection events)
    /\ Forall (fun ev => In ev.1 detection_ops) events.
Proof.
  intros H. inversion H; subst; eexists; (split; [reflexivity|]);
    (split; [reflexivity|]);
    repeat first [apply List.Forall_nil | apply List.Forall_cons; [cbn; auto 10|]].
Qed.

Lemma fatal_rejection_release (ok : bool) : fatal_rejection (OpLockDelete, ok) = false.
Proof. destruct ok; reflexivity. Qed.

(** [handleCron] throws exactly when a call other than a delete or a
    creation of the lease is rejected: the read of the lease row, or a call
    of [runDetection].  A rejected delete of a stale lease, a rejected
    creation (the lease was taken meanwhile, or the database is down) and a
    rejected release never surface. *)
Theorem handleCron_throws_iff (clk : TickClock) (w : World) :
  let result := run (handleCron clk) w in
  is_fulfilled result.1 = negb (existsb fatal_rejection (calls_since w result.2)).
Proof.
  cbn zeta. unfold calls_since.
  assert (Hacq : forall (w1 : World) (pre : list (Op * bool)),
    journal w1 = journal w ++ pre -> existsb fatal_rejection pre = false ->
    is_fulfilled (run (acquire_and_run clk) w1).1 =
      negb (existsb fatal_rejection
              (drop (length (journal w)) (journal (run (acquire_and_run clk) w1).2)))).
  { intros w1 pre Hj Hpre. rewrite acquire_and_run_eq. cbn zeta.
    pose proof (step_call_journal (cronLock_create (lease (cron_now clk))) w1) as Hc.
    destruct (step_call (cronLock_create (lease (cron_now clk))) w1) as [rc w2].
    cbn [fst snd op_of] in *.
    destruct (is_fulfilled rc) eqn:Hok; cbn [fst snd].
    - destruct (TickResult_calls clk w2 _ _ (runDetection_result clk w2))
        as (events & Hev & Hful & _).
      rewrite step_call_journal, Hev, Hc, Hj, Hful. cbn [op_of].
      rewrite <- !app_assoc, drop_app_length, !existsb_app, Hpre.
      cbn [existsb]. rewrite fatal_rejection_release, !orb_false_r. reflexivity.
    - rewrite Hc, Hj, <- app_assoc, drop_app_length, existsb_app, Hpre. reflexivity. }
  rewrite handleCron_eq. cbn zeta.
  pose proof (step_call_journal (cronLock_findUnique lockId) w) as Hf.
  destruct (step_call (cronLock_findUnique lockId) w) as [[[existing|]|e] w0];
    cbn [fst snd op_of is_fulfilled] in *.
  - destruct (cron_now clk <? expiry existing); cbn [fst snd is_fulfilled].
    + rewrite Hf, drop_app_length. reflexivity.
    + apply (Hacq _ [(OpLockFind, true);
                     (OpLockDelete,
                      is_fulfilled (step_call (cronLock_delete lockId) w0).1)]).
      * rewrite step_call_journal, Hf, <- app_assoc. reflexivity.
      * cbn. destruct (is_fulfilled _); reflexivity.
  - apply (Hacq _ [(OpLockFind, true)]); [exact Hf|reflexivity].
  - rewrite Hf, drop_app_length. reflexivity.
Qed.

Lemma alert_of_logs (clk : TickClock) (st1 st2 : Store) :
  logs st1 = logs st2 -> next_id st1 = next_id st2 -> alert clk st1 = alert clk st2.
Proof.
  intros Hlogs Hid. unfold alert.
  destruct (observations_of_logs clk st1 st2 Hlogs) as (_ & -> & ->).
  rewrite Hid. reflexivity.
Qed.

(** A whole tick adds at most one incident, and it adds it only when the
    records as they were when the tick began give at least 5 baseline
    buckets and satisfy both thresholds; the incident is then the one
    [runDetection] builds from those records. *)
Theorem tick_at_most_one_incident (clk : TickClock) (w : World) :
  let st' := db (run (handleCron clk) w).2 in
  incidents st' = incidents (db w)
  \/ ((MIN_BASELINE_BUCKETS <= length (baselineMetrics clk (db w)))%nat
      /\ anomaly (score clk (db w)) (currentErrorCount clk (db w)) = true
      /\ incidents st' = incidents (db w) ++ [alert clk (db w)]).
Proof.
  cbn zeta.
  assert (Hacq : forall w1 : World,
    logs (db w1) = logs (db w) -> incidents (db w1) = incidents (db w) ->
    next_id (db w1) = next_id (db w) ->
    incidents (db (run (acquire_and_run clk) w1).2) = incidents (db w)
    \/ ((MIN_BASELINE_BUCKETS <= length (baselineMetrics clk (db w)))%nat
        /\ anomaly (score clk (db w)) (currentErrorCount clk (db w)) = true
        /\ incidents (db (run (acquire_and_run clk) w1).2)
           = incidents (db w) ++ [alert clk (db w)])).
  { intros w1 Hl Hi Hn. rewrite acquire_and_run_eq. cbn zeta.
    destruct (lease_call_keeps (cronLock_create (lease (cron_now clk))) w1)
      as (Hl2 & Hi2 & Hn2); [cbn; auto|].
    destruct (step_call (cronLock_create (lease (cron_now clk))) w1) as [rc w2].
    cbn [fst snd] in *.
    destruct (is_fulfilled rc); cbn [snd]; [|left; congruence].
    destruct (lease_call_keeps (cronLock_delete lockId) (run (runDetection clk) w2).2)
      as (_ & Hi3 & _); [cbn; auto|].
    rewrite Hi3.
    destruct (observations_of_logs clk (db w2) (db w)) as (Hb & Hc & Hs); [congruence|].
    assert (Halert : alert clk (db w2) = alert clk (db w))
      by (apply alert_of_logs; congruence).
    destruct (run (runDetection clk) w2) as [rd w3] eqn:Hrun.
    apply run_runDetection_inv in Hrun.
    inversion Hrun; subst rd w3;
      cbn [snd db after with_incident correlated incidents];
      try (left; congruence);
      right; rewrite Hb, Hc, Hs in *; (repeat split; try assumption);
      rewrite Halert; congruence. }
  rewrite handleCron_eq. cbn zeta.
  destruct (lease_call_keeps (cronLock_findUnique lockId) w) as (Hl0 & Hi0 & Hn0);
    [cbn; auto|].
  destruct (step_call (cronLock_findUnique lockId) w) as [[[existing|]|e] w0];
    cbn [fst snd] in *.
  - destruct (cron_now clk <? expiry existing); [left; exact Hi0|].
    destruct (lease_call_keeps (cronLock_delete lockId) w0) as (Hl1 & Hi1 & Hn1);
      [cbn; auto|].
    apply Hacq; congruence.
  - apply Hacq; assumption.
  - left. exact Hi0.
Qed.

Lemma pass_queries_baseline (clk : TickClock) (w : World) :
  answered 0 w = true ->
  exists rest,
    journal (run (runDetection clk) w).2 = journal w ++ (OpBaseline, true) :: rest.
Proof.
  intros A0. destruct (run (runDetection clk) w) as [r w'] eqn:Hrun.
  apply run_runDetection_inv in Hrun.
  inversion Hrun; subst; cbn [snd journal after]; try congruence; eexists; reflexivity.
Qed.

(** While the database answers, a tick that is not blocked by a live lease
    creates the lease, runs the baseline query and ends with no lease row:
    it releases its own lease and a stale row it found is gone as well.  A
    tick blocked by a live lease leaves the database as it was. *)
Theorem tick_leaves_no_lease (clk : TickClock) (w : World) :
  outages w = [] ->
  let w' := (run (handleCron clk) w).2 in
  (exists row, cronLocks (db w) !! lockId = Some row
               /\ cron_now clk < expiry row /\ db w' = db w)
  \/ (cronLocks (db w') !! lockId = None
      /\ In (OpLockCreate, true) (calls_since w w')
      /\ In (OpBaseline, true) (calls_since w w')).
Proof.
  intros Hout. cbn zeta. unfold calls_since.
  assert (Hacq : forall (w1 : World) (pre : list (Op * bool)),
    outages w1 = [] -> journal w1 = journal w ++ pre ->
    cronLocks (db w1) !! lockId = None ->
    cronLocks (db (run (acquire_and_run clk) w1).2) !! lockId = None
    /\ In (OpLockCreate, true)
          (drop (length (journal w)) (journal (run (acquire_and_run clk) w1).2))
    /\ In (OpBaseline, true)
          (drop (length (journal w)) (journal (run (acquire_and_run clk) w1).2))
    /\ outages (run (acquire_and_run clk) w1).2 = []).
  { intros w1 pre Hout1 Hj Hrow. rewrite acquire_and_run_eq. cbn zeta.
    rewrite (step_call_no_outage _ w1 Hout1). cbn [perform fst snd].
    change (id (lease (cron_now clk))) with lockId. rewrite Hrow.
    cbn [fst snd is_fulfilled op_of].
    set (w2 := mkWorld _ [] _).
    destruct (pass_queries_baseline clk w2) as [rest Hrest]; [reflexivity|].
    pose proof (runDetection_cronLocks clk w2) as Hframe.
    pose proof (run_no_outage (runDetection clk) w2 eq_refl) as Hout3.
    set (w3 := (run (runDetection clk) w2).2) in *.
    rewrite (step_call_no_outage _ w3 Hout3). cbn [perform snd].
    assert (Hheld : cronLocks (db w3) !! lockId = Some (lease (cron_now clk))).
    { rewrite Hframe. subst w2. cbn [db cronLocks]. apply lookup_insert_eq. }
    rewrite Hheld. cbn [fst snd db journal outages cronLocks is_fulfilled op_of].
    rewrite Hrest. subst w2. cbn [journal]. rewrite Hj.
    rewrite <- !app_assoc, drop_app_length.
    split; [apply lookup_delete_eq|].
    split; [apply in_or_app; right; left; reflexivity|].
    split; [|reflexivity].
    apply in_or_app. right. right. left. reflexivity. }
  rewrite handleCron_eq. cbn zeta.
  rewrite (step_call_no_outage _ w Hout). cbn [perform fst snd op_of is_fulfilled].
  destruct (cronLocks (db w) !! lockId) as [row|] eqn:Hrow.
  - destruct (Z.ltb_spec (cron_now clk) (expiry row)) as [Hlive|Hstale].
    + left. exists row. repeat split. exact Hlive.
    + right. rewrite step_call_no_outage by reflexivity. cbn [perform db snd fst].
      rewrite Hrow. cbn [fst snd is_fulfilled op_of].
      match goal with
      | |- context [run (acquire_and_run clk) ?w1] =>
          destruct (Hacq w1 [(OpLockFind, true); (OpLockDelete, true)])
            as (Hnone & Hcreate & Hbase & _)
      end.
      * reflexivity.
      * cbn [journal]. rewrite <- app_assoc. reflexivity.
      * cbn [db cronLocks]. apply lookup_delete_eq.
      * repeat split; assumption.
  - right.
    match goal with
    | |- context [run (acquire_and_run clk) ?w1] =>
        destruct (Hacq w1 [(OpLockFind, true)]) as (Hnone & Hcreate & Hbase & _)
    end; [reflexivity|reflexivity|exact Hrow|].
    repeat split; assumption.
Qed.

Lemma tick_leaves_no_lease_witness :
  let w := mkWorld Sample.spike_stale_lease [] [] in
  let w' := (run (handleCron Sample.tick) w).2 in
  cronLocks (db w') !! lockId = None /\ In (OpBaseline, true) (calls_since w w').
Proof.
  cbn zeta.
  destruct (tick_leaves_no_lease Sample.tick (mkWorld Sample.spike_stale_lease [] []))
    as [(row & Hrow & Hlive & _)|(Hnone & _ & Hbase)].
  - reflexivity.
  - exfalso. vm_compute in Hrow. injection Hrow as <-. vm_compute in Hlive. discriminate.
  - split; [exact Hnone|exact Hbase].
Defined.

(** ** The baseline query and the two windows *)

Lemma tally_Forall (Q : Millis -> Prop) (bucket : Millis) (rows : list BaselineRow) :
  Q bucket ->
  Forall (fun r => Q (time_bucket r)) rows ->
  Forall (fun r => Q (time_bucket r)) (tally bucket rows).
Proof.
  intros Hq. induction rows as [|r rest IH]; intros Hall; cbn [tally].
  - apply List.Forall_cons; [exact Hq|apply List.Forall_nil].
  - inversion Hall; subst.
    destruct (time_bucket r =? bucket); [apply List.Forall_cons; assumption|].
    destruct (time_bucket r <? bucket).
    + apply List.Forall_cons; assumption.
    + apply List.Forall_cons; [assumption|apply IH; assumption].
Qed.

Lemma baseline_query_Forall (Q : Millis -> Prop) (sql_now : Millis) (ls : list Log) :
  (forall l, In l ls -> in_baseline_window sql_now l = true ->
             Q (date_trunc_minute (log_timestamp l))) ->
  Forall (fun r => Q (time_bucket r)) (baseline_query sql_now ls).
Proof.
  intros Hq. unfold baseline_query.
  change (fun l : Log => bool_decide (log_level l = ERROR)
                         && (sql_now - 30 * 60000 <? log_timestamp l))
    with (in_baseline_window sql_now).
  assert (Hsel : forall l, In l (List.filter (in_baseline_window sql_now) ls) ->
                           Q (date_trunc_minute (log_timestamp l))).
  { intros l Hin. apply filter_In in Hin as [Hin Hw]. apply Hq; assumption. }
  revert Hsel. generalize (List.filter (in_baseline_window sql_now) ls) as selected.
  assert (Hnil : Forall (fun r : BaselineRow => Q (time_bucket r)) []) by apply List.Forall_nil.
  revert Hnil. generalize (@nil BaselineRow) as rows.
  intros rows Hrows selected. revert rows Hrows.
  induction selected as [|l rest IH]; intros rows Hrows Hsel; cbn [fold_left].
  - exact Hrows.
  - apply IH.
    + apply tally_Forall; [apply Hsel; left; reflexivity|exact Hrows].
    + intros l' Hin. apply Hsel. right. exact Hin.
Qed.

Lemma tally_total (bucket : Millis) (rows : list BaselineRow) :
  total_loading (tally bucket rows) = total_loading rows + 1.
Proof.
  induction rows as [|r rest IH]; cbn [tally total_loading fold_right loading].
  - lia.
  - destruct (time_bucket r =? bucket); [cbn [total_loading fold_right loading]; lia|].
    destruct (time_bucket r <? bucket); cbn [total_loading fold_right loading].
    + lia.
    + fold (total_loading (tally bucket rest)). fold (total_loading rest). lia.
Qed.

Lemma baseline_query_total (sql_now : Millis) (ls : list Log) :
  total_loading (baseline_query sql_now ls) =
    Z.of_nat (length (List.filter (in_baseline_window sql_now) ls)).
Proof.
  unfold baseline_query.
  change (fun l : Log => bool_decide (log_level l = ERROR)
                         && (sql_now - 30 * 60000 <? log_timestamp l))
    with (in_baseline_window sql_now).
  generalize (List.filter (in_baseline_window sql_now) ls) as selected.
  assert (Hgen : forall (selected : list Log) (rows : list BaselineRow),
    total_loading (fold_left (fun rows l => tally (date_trunc_minute (log_timestamp l)) rows)
                             selected rows)
    = total_loading rows + Z.of_nat (length selected)).
  { induction selected as [|l rest IH]; intros rows; cbn [fold_left length].
    - lia.
    - rewrite IH, tally_total. lia. }
  intros selected. rewrite Hgen. cbn [total_loading fold_right]. lia.
Qed.

(** The baseline query groups by minute: its rows come strictly newest
    first, each on a minute boundary, none with a count of zero; the count
    of a minute is the number of ERROR records of the last 30 minutes that
    fall into it, and the counts add up to the number of those records. *)
Theorem baseline_query_groups_by_minute (sql_now : Millis) (ls : list Log) :
  let rows := baseline_query sql_now ls in
  Sorted newer rows
  /\ Forall (fun r => time_bucket r mod 60000 = 0 /\ 1 <= loading r) rows
  /\ (forall b : Millis,
        loading_of b rows =
          Z.of_nat (length (List.filter
                              (fun l => in_baseline_window sql_now l
                                        && (date_trunc_minute (log_timestamp l) =? b)) ls)))
  /\ total_loading rows = Z.of_nat (length (List.filter (in_baseline_window sql_now) ls)).
Proof.
  cbn zeta. destruct (baseline_query_buckets sql_now ls) as [Hsorted Hpos].
  split; [exact Hsorted|]. split; [|split].
  - apply Forall_and. split; [|exact Hpos].
    apply (baseline_query_Forall (fun b => b mod 60000 = 0)).
    intros l _ _. unfold date_trunc_minute. apply Z.mod_mul. lia.
  - intros b. apply baseline_query_loading.
  - apply baseline_query_total.
Qed.

Lemma descending_minutes_bound (lo : Z) (rows : list BaselineRow) :
  forall n : Z,
    Sorted newer rows ->
    Forall (fun r => exists k, time_bucket r = 60000 * k /\ lo <= k) rows ->
    match rows with
    | [] => lo <= n + 1
    | r :: _ => time_bucket r <= 60000 * n
    end ->
    Z.of_nat (length rows) <= n - lo + 1.
Proof.
  induction rows as [|r rest IH]; intros n Hs Hall Hhead; cbn [length].
  - lia.
  - inversion Hs as [|? ? Hrest Hhd]; subst.
    inversion Hall as [|? ? (k & Hk & Hlo) Hall']; subst.
    assert (Hlen : Z.of_nat (length rest) <= (n - 1) - lo + 1).
    { apply IH; [exact Hrest|exact Hall'|].
      destruct rest as [|r' rest']; [lia|].
      inversion Hhd as [|? ? Hnew]; subst. unfold newer in Hnew.
      inversion Hall' as [|? ? (k' & Hk' & _) _]; subst. lia. }
    lia.
Qed.

Lemma baseline_bucket_bound (sql_now : Millis) (ls : list Log) :
  (forall l, In l ls -> log_level l = ERROR -> log_timestamp l <= sql_now) ->
  (length (baseline_query sql_now ls) <= 31)%nat.
Proof.
  intros Hpast.
  destruct (baseline_query_buckets sql_now ls) as [Hsorted _].
  assert (Hall : Forall (fun r => exists k, time_bucket r = 60000 * k
                                            /\ sql_now / 60000 - 30 <= k
                                            /\ k <= sql_now / 60000)
                        (baseline_query sql_now ls)).
  { apply (baseline_query_Forall
             (fun b => exists k, b = 60000 * k /\ sql_now / 60000 - 30 <= k
                                 /\ k <= sql_now / 60000)).
    intros l Hin Hw. unfold in_baseline_window in Hw.
    apply andb_true_iff in Hw as [Hlvl Hts].
    apply bool_decide_eq_true in Hlvl. apply Z.ltb_lt in Hts.
    specialize (Hpast l Hin Hlvl).
    exists (log_timestamp l / 60000). unfold date_trunc_minute.
    split; [lia|]. split.
    - assert (Hle : (sql_now - 30 * 60000) / 60000 <= log_timestamp l / 60000)
        by (apply Z.div_le_mono; lia).
      replace (sql_now - 30 * 60000) with (sql_now + (-30) * 60000) in Hle by lia.
      rewrite Z.div_add in Hle by lia. lia.
    - apply Z.div_le_mono; lia. }
  pose proof (descending_minutes_bound (sql_now / 60000 - 30)
                (baseline_query sql_now ls) (sql_now / 60000) Hsorted) as Hbound.
  assert (Z.of_nat (length (baseline_query sql_now ls))
          <= sql_now / 60000 - (sql_now / 60000 - 30) + 1); [|lia].
  apply Hbound.
  - eapply Forall_impl; [exact Hall|]. intros r (k & Hk & Hlo & _). exists k. auto.
  - destruct (baseline_query sql_now ls) as [|r rest]; [lia|].
    inversion Hall as [|? ? (k & Hk & _ & Hhi) _]; subst. lia.
Qed.

(** When no ERROR record is stamped later than the clock of the database,
    the baseline query returns at most 31 buckets, the current minute and
    the 30 before it; 31 are reached when the clock is not on a minute
    boundary. *)
Theorem baseline_at_most_31_buckets :
  (forall (sql_now : Millis) (ls : list Log),
     (forall l, In l ls -> log_level l = ERROR -> log_timestamp l <= sql_now) ->
     (length (baseline_query sql_now ls) <= 31)%nat)
  /\ (let ls := Sample.quiet 0%nat 30 45000 ++ [Sample.error_log 99%nat 1805000] in
      forallb (fun l => log_timestamp l <=? 1830000) ls = true
      /\ length (baseline_query 1830000 ls) = 31%nat).
Proof.
  split; [exact baseline_bucket_bound|].
  vm_compute. split; reflexivity.
Qed.

Lemma baseline_at_most_31_buckets_witness :
  (length (baseline_query 2000000%Z (logs Sample.spike)) <= 31)%nat.
Proof.
  apply (proj1 baseline_at_most_31_buckets 2000000 (logs Sample.spike)).
  intros l Hin _. vm_compute in Hin.
  repeat (destruct Hin as [<-|Hin]; [vm_compute; discriminate|]). contradiction.
Defined.

Lemma filter_length_le {A : Type} (f g : A -> bool) (ls : list A) :
  (forall a, f a = true -> g a = true) ->
  (length (List.filter f ls) <= length (List.filter g ls))%nat.
Proof.
  intros Himp. induction ls as [|a rest IH]; cbn [List.filter]; [lia|].
  destruct (f a) eqn:Hf.
  - rewrite (Himp a Hf). cbn [length]. lia.
  - destruct (g a); cbn [length]; lia.
Qed.

(** The records of the current window belong to the baseline as well (the
    two clocks being less than 29 minutes apart): the count that is scored
    is never above the sum of the baseline counts it is scored against. *)
Theorem current_window_in_baseline (clk : TickClock) (st : Store) :
  sql_now clk - 30 * 60000 < detect_now clk - 60 * 1000 ->
  currentErrorCount clk st <= total_loading (baselineMetrics clk st).
Proof.
  intros Hclock. unfold currentErrorCount, baselineMetrics.
  rewrite baseline_query_total. apply inj_le. apply filter_length_le.
  intros l Hm. unfold matches, uncorrelated_errors_since, oneMinuteAgo in Hm.
  cbn [where_level where_timestamp_gte where_incident_id] in Hm.
  apply andb_true_iff in Hm as [Hm _]. apply andb_true_iff in Hm as [Hlvl Hts].
  unfold in_baseline_window. rewrite Hlvl. apply Z.leb_le in Hts.
  apply Z.ltb_lt. lia.
Qed.

Lemma current_window_in_baseline_witness :
  currentErrorCount Sample.tick Sample.spike
    <= total_loading (baselineMetrics Sample.tick Sample.spike).
Proof.
  apply (current_window_in_baseline Sample.tick Sample.spike).
  vm_compute. reflexivity.
Defined.

(** ** Ingestion feeds detection *)

Lemma filter_snoc {A : Type} (f : A -> bool) (ls : list A) (a : A) :
  List.filter f (ls ++ [a]) = List.filter f ls ++ (if f a then [a] else []).
Proof.
  rewrite List.filter_app. cbn [List.filter]. destruct (f a); reflexivity.
Qed.

Lemma stored_record_matches (c : Millis) (i : Id) (logDto : CreateLogDto) :
  matches (uncorrelated_errors_since c) (stored_record i logDto) =
    bool_decide (level logDto = ERROR) && (c <=? timestamp logDto).
Proof.
  unfold matches, stored_record, uncorrelated_errors_since.
  cbn [log_level log_timestamp log_incident_id where_level where_timestamp_gte
       where_incident_id].
  rewrite (bool_decide_eq_true_2 (None = None)) by reflexivity. apply andb_true_r.
Qed.

(** A record accepted by [processLog] is seen by the next detection pass
    at once: if it is an ERROR record stamped within the last minute it
    raises the current count by one, and if it is an ERROR record of the
    last 30 minutes it raises the count of its minute by one; a record of
    another level, or an older one, changes neither. *)
Theorem ingested_record_is_observed (logDto : CreateLogDto) (clk : TickClock) (w : World) :
  answered 0 w = true ->
  let st' := db (run (processLog logDto) w).2 in
  currentErrorCount clk st' =
    currentErrorCount clk (db w)
    + (if bool_decide (level logDto = ERROR) && (oneMinuteAgo clk <=? timestamp logDto)
       then 1 else 0)
  /\ forall b : Millis,
       loading_of b (baselineMetrics clk st') =
         loading_of b (baselineMetrics clk (db w))
         + (if bool_decide (level logDto = ERROR)
               && (sql_now clk - 30 * 60000 <? timestamp logDto)
               && (date_trunc_minute (timestamp logDto) =? b)
            then 1 else 0).
Proof.
  intros A0. cbn zeta.
  assert (Hst : db (run (processLog logDto) w).2 =
                mkStore (logs (db w) ++ [stored_record (next_id (db w)) logDto])
                        (incidents (db w)) (cronLocks (db w)) (S (next_id (db w)))).
  { unfold processLog. exec_call. rewrite A0. exec_done. reflexivity. }
  rewrite Hst. split.
  - unfold currentErrorCount. cbn [logs].
    rewrite filter_snoc, length_app, Nat2Z.inj_add, stored_record_matches.
    destruct (bool_decide (level logDto = ERROR) && (oneMinuteAgo clk <=? timestamp logDto));
      reflexivity.
  - intros b. unfold baselineMetrics. rewrite !baseline_query_loading. cbn [logs].
    rewrite filter_snoc, length_app, Nat2Z.inj_add.
    unfold stored_record. cbn [log_level log_timestamp].
    destruct (bool_decide (level logDto = ERROR)
              && (sql_now clk - 30 * 60000 <? timestamp logDto)
              && (date_trunc_minute (timestamp logDto) =? b));
      reflexivity.
Qed.

Lemma ingested_record_is_observed_witness :
  currentErrorCount Sample.tick (db (run (processLog Sample.record)
                                       (mkWorld Sample.calm [] [])).2)
  = currentErrorCount Sample.tick Sample.calm + 1.
Proof.
  apply (ingested_record_is_observed Sample.record Sample.tick (mkWorld Sample.calm [] [])).
  reflexivity.
Defined.

(** ** The first detection service *)

(** The database after an alert of the first service. *)
Lemma static_handleCron_run (clk : TickClock) (w : World) :
  answered 0 w = true -> answered 1 w = true -> answered 2 w = true ->
  let current := currentErrorCount clk (db w) in
  db (run (StaticDetectionService.handleCron clk) w).2 =
    if 5 <? current then
      mkStore (map (fun l => if matches (uncorrelated_errors_since (oneMinuteAgo clk)) l
                             then set_incident_id (next_id (db w)) l else l)
                   (logs (db w)))
              (incidents (db w)
                 ++ [mkIncident (next_id (db w))
                       ("High Error Rate Detected: " +:+ ES.digits current
                          +:+ " errors in last minute") HIGH OPEN])
              (cronLocks (db w)) (S (next_id (db w)))
    else db w.
Proof.
  intros A0 A1 A2. cbn zeta. unfold StaticDetectionService.handleCron.
  exec_call. rewrite A0. exec_done.
  fold (oneMinuteAgo clk). fold (uncorrelated_errors_since (oneMinuteAgo clk)).
  fold (currentErrorCount clk (db w)).
  destruct (5 <? currentErrorCount clk (db w)); [|reflexivity].
  unfold IncidentsService.create. exec_call. rewrite A1. exec_done.
  exec_call. rewrite A2. exec_done. reflexivity.
Qed.

(** The first service raises an incident exactly when the last minute holds
    more than 5 uncorrelated ERROR records, whatever the history: the
    incident is OPEN and HIGH and its title carries the count.  A second
    run over the same data raises nothing. *)
Theorem static_threshold_decision (clk clk' : TickClock) (w : World) :
  outages w = [] ->
  detect_now clk <= detect_now clk' ->
  let current := currentErrorCount clk (db w) in
  let w1 := (run (StaticDetectionService.handleCron clk) w).2 in
  let w2 := (run (StaticDetectionService.handleCron clk') w1).2 in
  (5 < current ->
     incidents (db w1) =
       incidents (db w)
         ++ [mkIncident (next_id (db w))
               ("High Error Rate Detected: " +:+ ES.digits current
                  +:+ " errors in last minute") HIGH OPEN])
  /\ (current <= 5 -> db w1 = db w)
  /\ (5 < current -> db w2 = db w1).
Proof.
  intros Hout Hclk. cbn zeta.
  assert (Hans : forall (n : nat) (v : World), outages v = [] -> answered n v = true).
  { intros n v Hv. unfold answered. rewrite Hv. destruct n; reflexivity. }
  pose proof (static_handleCron_run clk w (Hans _ _ Hout) (Hans _ _ Hout) (Hans _ _ Hout))
    as H1.
  cbn zeta in H1.
  split; [|split].
  - intros Hgt. rewrite H1, (proj2 (Z.ltb_lt _ _) Hgt). reflexivity.
  - intros Hle. rewrite H1, (proj2 (Z.ltb_ge _ _) Hle). reflexivity.
  - intros Hgt. rewrite (proj2 (Z.ltb_lt _ _) Hgt) in H1.
    pose proof (run_no_outage (StaticDetectionService.handleCron clk) w Hout) as Hout1.
    set (w1 := (run (StaticDetectionService.handleCron clk) w).2) in *.
    pose proof (static_handleCron_run clk' w1 (Hans _ _ Hout1) (Hans _ _ Hout1)
                  (Hans _ _ Hout1)) as H2.
    cbn zeta in H2. rewrite H2.
    replace (currentErrorCount clk' (db w1)) with 0; [reflexivity|].
    rewrite H1. unfold currentErrorCount. cbn [logs].
    rewrite correlated_window_empty; [reflexivity|]. unfold oneMinuteAgo. lia.
Qed.

Lemma static_threshold_decision_witness :
  db (run (StaticDetectionService.handleCron Sample.tick)
        (mkWorld Sample.calm [] [])).2 = Sample.calm.
Proof.
  destruct (static_threshold_decision Sample.tick Sample.tick (mkWorld Sample.calm [] []))
    as (_ & Hquiet & _).
  - reflexivity.
  - apply Z.le_refl.
  - apply Hquiet. vm_compute. intros H. discriminate H.
Defined.

(** The Z-score engine is the stricter of the two services: whenever
    [runDetection] raises an alert, the first service raises one on the
    same records and clock and correlates the same records; the converse
    fails during warm-up, where twenty errors in ten seconds alert the
    first service only. *)
Theorem zscore_alert_implies_static_alert :
  (forall (clk : TickClock) (w : World),
     outages w = [] ->
     incidents (db (run (runDetection clk) w).2) <> incidents (db w) ->
     let zscore := db (run (runDetection clk) w).2 in
     let static := db (run (StaticDetectionService.handleCron clk) w).2 in
     logs static = logs zscore
     /\ exists raised,
          incidents static = incidents (db w) ++ [raised]
          /\ incident_id raised = incident_id (alert clk (db w))
          /\ incident_severity raised = HIGH)
  /\ (incidents (db (run (runDetection Sample.tick) (mkWorld Sample.young [] [])).2) = []
      /\ map incident_title
           (incidents (db (run (StaticDetectionService.handleCron Sample.tick)
                             (mkWorld Sample.young [] [])).2))
         = ["High Error Rate Detected: 20 errors in last minute"]).
Proof.
  split; [|vm_compute; split; reflexivity].
  intros clk w Hout Hnew. cbn zeta.
  assert (Hans : forall n, answered n w = true).
  { intros n. unfold answered. rewrite Hout. destruct n; reflexivity. }
  assert (Hz : db (run (runDetection clk) w).2 = correlated clk (db w)
               /\ anomaly (score clk (db w)) (currentErrorCount clk (db w)) = true).
  { destruct (run (runDetection clk) w) as [r w1] eqn:Hrun.
    apply run_runDetection_inv in Hrun.
    inversion Hrun; subst; cbn [snd db after] in *;
      try contradiction; try (rewrite Hans in *; discriminate).
    split; [reflexivity|assumption]. }
  destruct Hz as [Hz Han]. apply anomaly_spec in Han as [_ Hgt].
  rewrite Hz, (static_handleCron_run clk w (Hans _) (Hans _) (Hans _)).
  cbn zeta. rewrite (proj2 (Z.ltb_lt _ _) Hgt).
  unfold correlated. cbn [logs incidents].
  split; [reflexivity|]. eexists. repeat split.
Qed.

Lemma zscore_alert_implies_static_alert_witness :
  logs (db (run (StaticDetectionService.handleCron Sample.tick)
              (mkWorld Sample.spike [] [])).2)
  = logs (db (run (runDetection Sample.tick) (mkWorld Sample.spike [] [])).2).
Proof.
  apply (proj1 zscore_alert_implies_static_alert Sample.tick (mkWorld Sample.spike [] [])).
  - reflexivity.
  - vm_compute. discriminate.
Defined.

(** ** Reading an incident back *)

Lemma find_fresh_incident (i : Id) (incs : list Incident) (new : Incident) :
  forallb (fun inc => (incident_id inc <? i)%nat) incs = true ->
  incident_id new = i ->
  List.find (fun inc => bool_decide (incident_id inc = i)) (incs ++ [new]) = Some new
  /\ List.find (fun inc => bool_decide (incident_id inc = i)) incs = None.
Proof.
  intros Hbelow Hid. induction incs as [|inc rest IH]; cbn [app List.find].
  - rewrite (bool_decide_eq_true_2 _ Hid). split; reflexivity.
  - cbn [forallb] in Hbelow. apply andb_true_iff in Hbelow as [Hlt Hrest].
    apply Nat.ltb_lt in Hlt.
    rewrite (bool_decide_eq_false_2 (incident_id inc = i)) by lia.
    apply IH. exact Hrest.
Qed.

(** After a fulfilled pass that raised an alert, [findOne] of the new id
    resolves to the alert together with exactly the records the pass
    correlated, in their order; before the pass it resolved to null.
    (Identifiers in use lie below the id counter of the database.) *)
Theorem alert_is_read_back (clk : TickClock) (w w1 : World) :
  run (runDetection clk) w = (Fulfilled tt, w1) ->
  incidents (db w1) <> incidents (db w) ->
  ids_below_counter (db w) = true ->
  findOne (next_id (db w)) (db w) = None
  /\ exists attached,
       findOne (next_id (db w)) (db w1) = Some (alert clk (db w), attached)
       /\ attached =
            map (set_incident_id (next_id (db w)))
                (List.filter (matches (uncorrelated_errors_since (oneMinuteAgo clk)))
                             (logs (db w)))
       /\ Z.of_nat (length attached) = currentErrorCount clk (db w).
Proof.
  intros Hrun Hnew Hids. apply run_runDetection_inv in Hrun.
  assert (Hdb : db w1 = correlated clk (db w)).
  { inversion Hrun; subst; cbn [db after] in *; try contradiction; reflexivity. }
  unfold ids_below_counter in Hids. apply andb_true_iff in Hids as [Hincs Hlogs].
  destruct (find_fresh_incident (next_id (db w)) (incidents (db w)) (alert clk (db w))
              Hincs eq_refl) as [Hfound Hnone].
  unfold findOne. rewrite Hnone, Hdb. unfold correlated. cbn [incidents logs].
  rewrite Hfound. split; [reflexivity|].
  eexists. split; [|split; [reflexivity|]].
  2:{ rewrite length_map. reflexivity. }
  f_equal. f_equal.
  induction (logs (db w)) as [|l rest IH]; [reflexivity|].
  cbn [forallb] in Hlogs. apply andb_true_iff in Hlogs as [Hl Hrest].
  cbn [map List.filter].
  destruct (matches (uncorrelated_errors_since (oneMinuteAgo clk)) l) eqn:Hm.
  - unfold set_incident_id at 1. cbn [log_incident_id].
    rewrite (bool_decide_eq_true_2 (Some (next_id (db w)) = Some (next_id (db w))))
      by reflexivity.
    cbn [map]. f_equal. apply IH. exact Hrest.
  - replace (bool_decide (log_incident_id l = Some (next_id (db w)))) with false.
    + apply IH. exact Hrest.
    + symmetry. apply bool_decide_eq_false_2. intros Heq. rewrite Heq in Hl.
      apply Nat.ltb_lt in Hl. lia.
Qed.

Lemma alert_is_read_back_witness :
  findOne 200%nat Sample.spike = None
  /\ exists attached,
       findOne 200%nat (correlated Sample.tick Sample.spike)
         = Some (alert Sample.tick Sample.spike, attached)
       /\ attached =
            map (set_incident_id 200%nat)
                (List.filter (matches (uncorrelated_errors_since (oneMinuteAgo Sample.tick)))
                             (logs Sample.spike))
       /\ Z.of_nat (length attached) = currentErrorCount Sample.tick Sample.spike.
Proof.
  apply (alert_is_read_back Sample.tick (mkWorld Sample.spike [] [])
           (mkWorld (correlated Sample.tick Sample.spike) []
              [(OpBaseline, true); (OpLogCount, true); (OpIncidentCreate, true);
               (OpLogUpdateMany, true)])).
  - vm_compute. reflexivity.
  - vm_compute. discriminate.
  - vm_compute. reflexivity.
Defined.

(** A detection pass never changes what [findOne] resolves to for an
    incident that existed before it: the same row, with the same records;
    no record is moved from one incident to another. *)
Theorem earlier_incidents_read_unchanged (clk : TickClock) (w : World) (i : Id) :
  i <> next_id (db w) ->
  is_Some (findOne i (db w)) ->
  findOne i (db (run (runDetection clk) w).2) = findOne i (db w).
Proof.
  intros Hne Hsome.
  assert (Hfilter : forall ls,
    List.filter (fun l => bool_decide (log_incident_id l = Some i))
      (map (fun l => if matches (uncorrelated_errors_since (oneMinuteAgo clk)) l
                     then set_incident_id (next_id (db w)) l else l) ls)
    = List.filter (fun l => bool_decide (log_incident_id l = Some i)) ls).
  { induction ls as [|l rest IH]; [reflexivity|]. cbn [map List.filter].
    destruct (matches (uncorrelated_errors_since (oneMinuteAgo clk)) l) eqn:Hm.
    - unfold set_incident_id at 1. cbn [log_incident_id].
      rewrite (bool_decide_eq_false_2 (Some (next_id (db w)) = Some i)) by congruence.
      unfold matches, uncorrelated_errors_since in Hm. cbn [where_incident_id] in Hm.
      apply andb_true_iff in Hm as [_ Hnull]. apply bool_decide_eq_true in Hnull.
      rewrite (bool_decide_eq_false_2 (log_incident_id l = Some i)) by congruence.
      exact IH.
    - rewrite IH. reflexivity. }
  assert (Hfind : forall new,
    List.find (fun inc => bool_decide (incident_id inc = i)) (incidents (db w) ++ [new])
    = List.find (fun inc => bool_decide (incident_id inc = i)) (incidents (db w))).
  { intros new. unfold findOne in Hsome.
    induction (incidents (db w)) as [|inc rest IH]; cbn [app List.find] in *.
    - destruct Hsome as [x Hx]. discriminate Hx.
    - destruct (bool_decide (incident_id inc = i)); [reflexivity|]. apply IH. exact Hsome. }
  destruct (run (runDetection clk) w) as [r w1] eqn:Hrun.
  apply run_runDetection_inv in Hrun.
  inversion Hrun; subst; cbn [snd db after]; try reflexivity;
    unfold findOne, with_incident, correlated; cbn [incidents logs];
    rewrite Hfind, ?Hfilter; reflexivity.
Qed.

Lemma earlier_incidents_read_unchanged_witness :
  findOne 200%nat (db (run (runDetection Sample.tick)
                         (mkWorld (correlated Sample.tick Sample.spike) [] [])).2)
  = findOne 200%nat (correlated Sample.tick Sample.spike).
Proof.
  apply (earlier_incidents_read_unchanged Sample.tick
           (mkWorld (correlated Sample.tick Sample.spike) [] []) 200%nat).
  - vm_compute. discriminate.
  - vm_compute. eexists. reflexivity.
Defined.

(** ** Two instances, no lease yet *)

Lemma at_stage_protected (clk : TickClock) (s : Stage) (p : Prog unit) :
  at_stage clk s p -> Protected p -> s = Holding.
Proof.
  intros Hs Hp. apply Protected_next in Hp as (op & Hnext & Hop).
  cbn [detection_ops In] in Hop.
  destruct s; cbn [at_stage] in Hs; [subst p|subst p|reflexivity|congruence];
    cbn in Hnext; injection Hnext as <-; intuition discriminate.
Qed.

Lemma table_ok_sym (clk clk' : TickClock) (s s' : Stage) (row : option CronLock) :
  table_ok clk clk' s s' row -> table_ok clk' clk s' s row.
Proof. destruct s, s'; exact (fun H => H). Qed.

(** One call of an instance at a stage, the other instance being at stage
    [s'] with a tick that started less than the lease duration before. *)
Lemma stage_step (clk clk' : TickClock) (s s' : Stage) (st : Store) (p : Prog unit) :
  cron_now clk < cron_now clk' + 9000 ->
  at_stage clk s p ->
  table_ok clk clk' s s' (cronLocks st !! lockId) ->
  match p with
  | Await call k =>
      exists s2,
        at_stage clk s2 (k (perform call st).1)
        /\ table_ok clk clk' s2 s' (cronLocks (perform call st).2 !! lockId)
  | _ => True
  end.
Proof.
  intros Hnear Hs Htab. apply Z.ltb_lt in Hnear.
  destruct s; cbn [at_stage] in Hs.
  - subst p. unfold handleCron. cbn zeta. cbn [bind await perform fst snd].
    destruct s'; cbn [table_ok] in Htab; rewrite Htab; cbn [bind].
    + exists Acquiring. split; [reflexivity|reflexivity].
    + exists Acquiring. split; [reflexivity|reflexivity].
    + change (expiry (lease (cron_now clk'))) with (cron_now clk' + 9000).
      rewrite Hnear. exists Settled. split; [reflexivity|first [exact Htab|reflexivity]].
    + exists Acquiring. split; [reflexivity|reflexivity].
  - subst p. unfold acquire_and_run. cbn [bind await try_catch perform].
    change (id (lease (cron_now clk))) with lockId.
    destruct s'; cbn [table_ok] in Htab; rewrite Htab;
      cbn [fst snd bind try_catch cronLocks].
    + exists Holding. split; [apply runDetection_protected|apply lookup_insert_eq].
    + exists Holding. split; [apply runDetection_protected|apply lookup_insert_eq].
    + exists Settled. split; [reflexivity|first [exact Htab|reflexivity]].
    + exists Holding. split; [apply runDetection_protected|apply lookup_insert_eq].
  - destruct Hs as [k Hk|R call k Hop Hk].
    + cbn [perform].
      destruct s'; cbn [table_ok] in Htab; try contradiction; rewrite Htab;
        cbn [fst snd cronLocks]; exists Settled;
        (split; [apply Hk|apply lookup_delete_eq]).
    + exists Holding. split; [apply Hk|].
      rewrite (detection_call_keeps_locks call st Hop). exact Htab.
  - destruct p; [exact I|exact I|discriminate Hs].
Qed.

(** The stages and the lease table stay in step over every turn. *)
Lemma lease_exclusion_turn (clkA clkB : TickClock) (i : nat) (c : Cluster) :
  cron_now clkA < cron_now clkB + 9000 ->
  cron_now clkB < cron_now clkA + 9000 ->
  lease_exclusion clkA clkB c ->
  lease_exclusion clkA clkB (turn i c).
Proof.
  intros HA HB (sA & sB & pA & pB & Hpool & HsA & HsB & Htab).
  destruct c as [ps st h]. cbn [pool shared] in *. subst ps.
  rewrite turn_cluster.
  destruct i as [|[|i]]; cbn [lookup list_lookup].
  - destruct pA as [a|e|R call k];
      [exists sA, sB, (Return a), pB; auto|exists sA, sB, (Throw e), pB; auto|].
    destruct (stage_step clkA clkB sA sB st _ HA HsA Htab) as (s2 & Hs2 & Htab2).
    destruct (perform call st) as [r st2]. cbn [fst snd] in *.
    exists s2, sB, (k r), pB. auto.
  - destruct pB as [a|e|R call k];
      [exists sA, sB, pA, (Return a); auto|exists sA, sB, pA, (Throw e); auto|].
    apply table_ok_sym in Htab.
    destruct (stage_step clkB clkA sB sA st _ HB HsB Htab) as (s2 & Hs2 & Htab2).
    destruct (perform call st) as [r st2]. cbn [fst snd] in *.
    apply table_ok_sym in Htab2.
    exists sA, s2, pA, (k r). auto.
  - exists sA, sB, pA, pB. auto.
Qed.

Lemma lease_exclusion_interleave (clkA clkB : TickClock) (schedule : list nat) (c : Cluster) :
  cron_now clkA < cron_now clkB + 9000 ->
  cron_now clkB < cron_now clkA + 9000 ->
  lease_exclusion clkA clkB c ->
  lease_exclusion clkA clkB (interleave schedule c).
Proof.
  intros HA HB. revert c.
  induction schedule as [|i schedule IH]; intros c Hc; [exact Hc|].
  cbn [interleave fold_left]. apply IH. apply lease_exclusion_turn; assumption.
Qed.

(** With no lease row at all, two instances whose ticks start within the
    lease duration of each other are never both inside the protected
    section, however their calls interleave and however far the schedule
    runs; while an instance is inside, the lease row is its own.  (Both may
    create a lease in the same schedule, the second once the first has
    released.) *)
Theorem fresh_lease_mutual_exclusion
    (clkA clkB : TickClock) (st : Store) (schedule : list nat) :
  cronLocks st !! lockId = None ->
  cron_now clkA < cron_now clkB + 9000 ->
  cron_now clkB < cron_now clkA + 9000 ->
  let c := interleave schedule (mkCluster [handleCron clkA; handleCron clkB] st []) in
  exists pA pB,
    pool c = [pA; pB]
    /\ ~ (Protected pA /\ Protected pB)
    /\ (Protected pA -> cronLocks (shared c) !! lockId = Some (lease (cron_now clkA)))
    /\ (Protected pB -> cronLocks (shared c) !! lockId = Some (lease (cron_now clkB))).
Proof.
  intros Hrow HA HB. cbn zeta.
  destruct (lease_exclusion_interleave clkA clkB schedule
              (mkCluster [handleCron clkA; handleCron clkB] st []) HA HB)
    as (sA & sB & pA & pB & Hpool & HsA & HsB & Htab).
  { exists Reading, Reading, (handleCron clkA), (handleCron clkB).
    repeat split. exact Hrow. }
  exists pA, pB. split; [exact Hpool|]. split; [|split].
  - intros [HpA HpB].
    rewrite (at_stage_protected clkA sA pA HsA HpA) in Htab.
    rewrite (at_stage_protected clkB sB pB HsB HpB) in Htab. exact Htab.
  - intros HpA. rewrite (at_stage_protected clkA sA pA HsA HpA) in Htab.
    destruct sB; cbn [table_ok] in Htab; [exact Htab|exact Htab|contradiction|exact Htab].
  - intros HpB. rewrite (at_stage_protected clkB sB pB HsB HpB) in Htab.
    destruct sA; cbn [table_ok] in Htab; [exact Htab|exact Htab|contradiction|exact Htab].
Qed.

Lemma fresh_lease_mutual_exclusion_witness :
  let c := interleave [0; 1; 0; 0; 0; 1; 1; 1]%nat
             (mkCluster [handleCron Sample.tick; handleCron Sample.tick]
                        Sample.young []) in
  exists pA pB,
    pool c = [pA; pB]
    /\ ~ (Protected pA /\ Protected pB)
    /\ (Protected pA -> cronLocks (shared c) !! lockId = Some (lease 2000000))
    /\ (Protected pB -> cronLocks (shared c) !! lockId = Some (lease 2000000)).
Proof.
  apply (fresh_lease_mutual_exclusion Sample.tick Sample.tick Sample.young
           [0; 1; 0; 0; 0; 1; 1; 1]%nat).
  - reflexivity.
  - vm_compute. reflexivity.
  - vm_compute. reflexivity.
Defined.

(** One creation per race is not one creation per schedule: here the first
    instance has released (its baseline was too young to score) before the
    second, which had found no row either, comes to create its lease, and
    both creations are fulfilled, one after the other. *)
Example fresh_lease_created_in_turn :
  let c := interleave [0; 1; 0; 0; 0; 1; 1; 1]%nat
             (mkCluster [handleCron Sample.tick; handleCron Sample.tick]
                        Sample.young []) in
  history c = [(0, OpLockFind, true); (1, OpLockFind, true);
               (0, OpLockCreate, true); (0, OpBaseline, true); (0, OpLockDelete, true);
               (1, OpLockCreate, true); (1, OpBaseline, true); (1, OpLockDelete, true)]%nat
  /\ leases_created (history c) = 2%nat.
Proof. vm_compute. split; reflexivity. Qed.


(** Both instances find no lease and both try to create one: the second
    creation is rejected by the unique key, and the loser returns normally
    without making another call, while the winner goes on to the baseline
    query. *)
Theorem lost_creation_race_is_silent (clkA clkB : TickClock) (st : Store) :
  cronLocks st !! lockId = None ->
  let c := interleave [0; 1; 0; 1]%nat
             (mkCluster [handleCron clkA; handleCron clkB] st []) in
  history c = [(0, OpLockFind, true); (1, OpLockFind, true);
               (0, OpLockCreate, true); (1, OpLockCreate, false)]%nat
  /\ pool c !! 1%nat = Some (Return tt)
  /\ (next_call <$> pool c !! 0%nat) = Some (Some OpBaseline)
  /\ cronLocks (shared c) !! lockId = Some (lease (cron_now clkA))
  /\ interleave [1; 1; 1]%nat c = c.
Proof.
  intros Hrow. cbn zeta. cbn [interleave fold_left].
  do 4 cluster_turn.
  cbn [history pool shared cronLocks lookup list_lookup fmap option_fmap option_map
       next_call try_finally runDetection bind await op_of].
  split; [reflexivity|]. split; [reflexivity|]. split; [reflexivity|].
  split; [apply lookup_insert_eq|].
  do 3 (rewrite turn_cluster; cbn [lookup list_lookup]). reflexivity.
Qed.

Lemma lost_creation_race_is_silent_witness :
  pool (interleave [0; 1; 0; 1]%nat
          (mkCluster [handleCron Sample.tick; handleCron Sample.tick] Sample.spike []))
    !! 1%nat = Some (Return tt).
Proof.
  apply (lost_creation_race_is_silent Sample.tick Sample.tick Sample.spike).
  reflexivity.
Defined.

(** ** Ingestion during a pass *)


